(** * skopos: configuration loading, Tailscale server lifecycle, dnsmon
      start-up, and the resolver inventory reconciliation engine.

    The development follows the layout of the repository:
    - [Config]    embeds [internal/config/config.go];
    - [Tailscale] embeds [internal/tailscale/server.go];
    - [Dnsmon]    embeds [cmd/dnsmon/dnsmon.go];
    - [Engine]    models the inventory store, the health state machine, the
                  reconciler and the RPC handlers, which the repository does
                  not implement yet (the entry point only carries TODO
                  markers for them). *)

From Stdlib Require Import ZArith Ascii String List Lia.
From stdpp Require Import base option list gmap strings fin_maps fin_sets.

Local Open Scope string_scope.

(** Go functions return a value together with an [error]; we use a sum with
    the error on one side. *)
Inductive result (A : Type) : Type :=
| Ok (a : A)
| Err (msg : string).
Arguments Ok {A} a.
Arguments Err {A} msg.

Definition is_ok {A} (r : result A) : bool :=
  match r with Ok _ => true | Err _ => false end.

(** [fmt.Errorf("<prefix>: %w", err)]. *)
Definition wrap (prefix : string) (msg : string) : string :=
  prefix ++ ": " ++ msg.

(** ** Go standard library pieces used by the repository *)
Module Go.

(** [time.Duration] is an [int64] count of nanoseconds. *)
Definition Duration : Type := Z.
Definition Second : Duration := 1000000000%Z.

(** [int] on the 64-bit platforms the service is built for. *)
Definition minInt : Z := (- 2 ^ 63)%Z.
Definition maxInt : Z := (2 ^ 63 - 1)%Z.

Definition is_digit (c : ascii) : bool :=
  (48 <=? nat_of_ascii c)%nat && (nat_of_ascii c <=? 57)%nat.

Definition digit_value (c : ascii) : Z := (Z.of_nat (nat_of_ascii c) - 48)%Z.

Fixpoint digits (acc : Z) (s : string) : option Z :=
  match s with
  | EmptyString => Some acc
  | String c s' =>
      if is_digit c then digits (acc * 10 + digit_value c)%Z s' else None
  end.

(** [strconv.Atoi]: an optional sign followed by one or more decimal
    digits, rejected when the value does not fit [int]. *)
Definition Atoi (s : string) : option Z :=
  match s with
  | EmptyString => None
  | String c rest =>
      let '(neg, body) :=
        if Ascii.eqb c "-" then (true, rest)
        else if Ascii.eqb c "+" then (false, rest)
        else (false, s) in
      match body with
      | EmptyString => None
      | _ =>
          match digits 0%Z body with
          | None => None
          | Some n =>
              let v := if neg : bool then (- n)%Z else n in
              if ((minInt <=? v) && (v <=? maxInt))%Z then Some v else None
          end
      end
  end.

End Go.

(** ** internal/config/config.go *)
Module Config.

Record TailscaleConfig := {
  AuthKey : string;
  Hostname : string;
  StateDir : string;
}.

Record HealthCheckConfig := {
  Interval : Go.Duration;
  Timeout : Go.Duration;
  UnhealthyThreshold : Z;
}.

Record DNSConfig := {
  UpdateTimeout : Go.Duration;
}.

Record Config := {
  Tailscale : TailscaleConfig;
  HealthCheck : HealthCheckConfig;
  DNS : DNSConfig;
  Development : bool;
}.

(** What [Load] observes of the machine it runs on: the process
    environment, whether [/.dockerenv] can be stat'ed, and the XDG data
    directory resolved by the [xdg] package. *)
Record OS := {
  environ : gmap string string;
  dockerenv : bool;
  DataHome : string;
}.

(** [os.Getenv]: the empty string when the variable is not set. *)
Definition Getenv (os : OS) (key : string) : string :=
  default "" (environ os !! key).

Definition nonempty (s : string) : bool :=
  match s with EmptyString => false | _ => true end.

Section Load.
(** Library functions of which only the signature matters here:
    [time.ParseDuration], [strconv.Atoi] and [filepath.Join]. *)
Variable ParseDuration : string -> option Go.Duration.
Variable Atoi : string -> option Z.
Variable Join : list string -> string.

Definition getEnvOrDefault (os : OS) (key defaultValue : string) : string :=
  let value := Getenv os key in
  if nonempty value then value else defaultValue.

Definition getDurationOrDefault (os : OS) (key : string)
    (defaultValue : Go.Duration) : Go.Duration :=
  let value := Getenv os key in
  if nonempty value then
    match ParseDuration value with
    | Some duration => duration
    | None => defaultValue
    end
  else defaultValue.

Definition getIntOrDefault (os : OS) (key : string) (defaultValue : Z) : Z :=
  let value := Getenv os key in
  if nonempty value then
    match Atoi value with
    | Some intValue => intValue
    | None => defaultValue
    end
  else defaultValue.

Definition isRunningInContainer (os : OS) : bool :=
  if dockerenv os then true
  else if nonempty (Getenv os "container") then true
  else false.

Definition determineStateDir (os : OS) (development : bool) : result string :=
  if development then Ok "./tsnet.tmp/"
  else if isRunningInContainer os then Ok "/data"
  else Ok (Join [DataHome os; "skopos"; "tsnet"]).

Definition Load (os : OS) : result Config :=
  let development := String.eqb (Getenv os "DEVEL") "true" in
  let authKey := Getenv os "TS_AUTHKEY" in
  let hostname := getEnvOrDefault os "TS_HOSTNAME" "skopos-dnsmon" in
  match determineStateDir os development with
  | Err e => Err (wrap "failed to determine state directory" e)
  | Ok stateDir =>
      let stateDir' := getEnvOrDefault os "TS_STATE_DIR" stateDir in
      let interval :=
        getDurationOrDefault os "HEALTH_CHECK_INTERVAL" (20 * Go.Second)%Z in
      let timeout :=
        getDurationOrDefault os "HEALTH_CHECK_TIMEOUT" (5 * Go.Second)%Z in
      let threshold := getIntOrDefault os "UNHEALTHY_THRESHOLD" 1%Z in
      let updateTimeout :=
        getDurationOrDefault os "DNS_UPDATE_TIMEOUT" (10 * Go.Second)%Z in
      if nonempty authKey then
        Ok {| Tailscale := {| AuthKey := authKey;
                              Hostname := hostname;
                              StateDir := stateDir' |};
              HealthCheck := {| Interval := interval;
                                Timeout := timeout;
                                UnhealthyThreshold := threshold |};
              DNS := {| UpdateTimeout := updateTimeout |};
              Development := development |}
      else Err "TS_AUTHKEY is required"
  end.

End Load.

(** A value of an optional numeric input is invalid when it is set to a
    non-empty string that the corresponding parser rejects. *)
Definition invalid {A} (parse : string -> option A) (os : OS) (key : string) : Prop :=
  Getenv os key <> "" /\ parse (Getenv os key) = None.

(** Concrete machines used in the examples below.  They run in
    development mode or in a container and set none of the duration
    variables, so neither [filepath.Join] nor [time.ParseDuration] is
    reached on them. *)
Definition no_duration : string -> option Go.Duration := fun _ => None.
Definition no_join : list string -> string := fun _ => "".

Definition os_bad_threshold : OS :=
  {| environ := <["TS_AUTHKEY" := "tskey-auth-1"]>
                (<["DEVEL" := "true"]>
                (<["UNHEALTHY_THRESHOLD" := "abc"]> ∅));
     dockerenv := false;
     DataHome := "/home/skopos/.local/share" |}.

Definition os_zero_threshold : OS :=
  {| environ := <["TS_AUTHKEY" := "tskey-auth-1"]>
                (<["DEVEL" := "true"]>
                (<["UNHEALTHY_THRESHOLD" := "0"]> ∅));
     dockerenv := false;
     DataHome := "/home/skopos/.local/share" |}.

Definition os_defaults : OS :=
  {| environ := <["TS_AUTHKEY" := "tskey-auth-1"]> ∅;
     dockerenv := true;
     DataHome := "/home/skopos/.local/share" |}.

(** [os.Setenv] and [os.Unsetenv], as seen by a later [Load]. *)
Definition setenv (key value : string) (os : OS) : OS :=
  {| environ := <[key := value]> (environ os);
     dockerenv := dockerenv os; DataHome := DataHome os |}.

Definition unsetenv (key : string) (os : OS) : OS :=
  {| environ := delete key (environ os);
     dockerenv := dockerenv os; DataHome := DataHome os |}.

(** The environment variables that [Load] and its helpers name. *)
Definition read_vars : list string :=
  [ "DEVEL"; "TS_AUTHKEY"; "TS_HOSTNAME"; "TS_STATE_DIR";
    "HEALTH_CHECK_INTERVAL"; "HEALTH_CHECK_TIMEOUT"; "UNHEALTHY_THRESHOLD";
    "DNS_UPDATE_TIMEOUT"; "container" ].

(** A duration parser for the examples: like [time.ParseDuration] it reads
    "0s" as a zero duration; no other string is given to it there. *)
Definition parse_0s : string -> option Go.Duration :=
  fun s => if String.eqb s "0s" then Some 0%Z else None.

(** A machine with nothing set, outside any container, and machines
    derived from it. *)
Definition os_bare : OS :=
  {| environ := ∅; dockerenv := false; DataHome := "/home/skopos/.local/share" |}.

Definition os_zero_interval : OS :=
  setenv "HEALTH_CHECK_INTERVAL" "0s" (setenv "DEVEL" "true"
    (setenv "TS_AUTHKEY" "tskey-auth-1" os_bare)).

Definition os_container_devel : OS :=
  setenv "container" "podman" (setenv "DEVEL" "true"
    (setenv "TS_AUTHKEY" "tskey-auth-1" os_bare)).

End Config.

(** ** internal/tailscale/server.go *)
Module Tailscale.

(** [netip.Addr]: the zero address is neither IPv4 nor IPv6; [text] is
    what [String()] prints. *)
Inductive AddrKind := ZeroAddr | V4 | V6.

Record Addr := { kind : AddrKind; text : string }.

Definition Is4 (ip : Addr) : bool :=
  match kind ip with V4 => true | _ => false end.

Definition Is6 (ip : Addr) : bool :=
  match kind ip with V6 => true | _ => false end.

(** [ipnstate.PeerStatus] and [ipnstate.Status], restricted to the fields
    that [Start] reads. *)
Record PeerStatus := { TailscaleIPs : list Addr }.

Record Status := { BackendState : string; Self : option PeerStatus }.

(** [ipn.Running.String()]. *)
Definition Running : string := "Running".

(** The wrapped [tsnet.Server]: its configuration and the lifecycle
    methods that have been invoked on it so far. *)
Inductive TsnetCall := CallLocalClient | CallClose.

Record TsnetServer := {
  ts_Hostname : string;
  ts_Dir : string;
  ts_AuthKey : string;
  ts_Ephemeral : bool;
  ts_calls : list TsnetCall;
}.

Definition invoke (c : TsnetCall) (t : TsnetServer) : TsnetServer :=
  {| ts_Hostname := ts_Hostname t; ts_Dir := ts_Dir t;
     ts_AuthKey := ts_AuthKey t; ts_Ephemeral := ts_Ephemeral t;
     ts_calls := ts_calls t ++ [c] |}.

(** [*local.Client]: [None] is the zero client made by [New], [Some h] a
    client handed out by the tsnet server. *)
Definition LocalClient : Type := option nat.

Record Server := {
  server : TsnetServer;
  localClient : LocalClient;
  hostname : string;
  stateDir : string;
  started : bool;
  tailscaleIP : string;
  tailscaleIPv6 : string;
}.

Record Config := {
  Hostname : string;
  StateDir : string;
  AuthKey : string;
  Ephemeral : bool;
}.

Definition set_server (t : TsnetServer) (s : Server) : Server :=
  {| server := t; localClient := localClient s; hostname := hostname s;
     stateDir := stateDir s; started := started s;
     tailscaleIP := tailscaleIP s; tailscaleIPv6 := tailscaleIPv6 s |}.

Definition set_localClient (lc : LocalClient) (s : Server) : Server :=
  {| server := server s; localClient := lc; hostname := hostname s;
     stateDir := stateDir s; started := started s;
     tailscaleIP := tailscaleIP s; tailscaleIPv6 := tailscaleIPv6 s |}.

Definition set_started (b : bool) (s : Server) : Server :=
  {| server := server s; localClient := localClient s; hostname := hostname s;
     stateDir := stateDir s; started := b;
     tailscaleIP := tailscaleIP s; tailscaleIPv6 := tailscaleIPv6 s |}.

Definition set_tailscaleIP (ip : string) (s : Server) : Server :=
  {| server := server s; localClient := localClient s; hostname := hostname s;
     stateDir := stateDir s; started := started s;
     tailscaleIP := ip; tailscaleIPv6 := tailscaleIPv6 s |}.

Definition set_tailscaleIPv6 (ip : string) (s : Server) : Server :=
  {| server := server s; localClient := localClient s; hostname := hostname s;
     stateDir := stateDir s; started := started s;
     tailscaleIP := tailscaleIP s; tailscaleIPv6 := ip |}.

(** [New]; [mkdirAll] is the error of [os.MkdirAll(cfg.StateDir, 0700)],
    if any.  Log output is not modelled. *)
Definition New (cfg : Config) (mkdirAll : option string) : result Server :=
  match mkdirAll with
  | Some e => Err (wrap "failed to create state directory" e)
  | None =>
      Ok {| server := {| ts_Hostname := Hostname cfg; ts_Dir := StateDir cfg;
                         ts_AuthKey := AuthKey cfg;
                         ts_Ephemeral := Ephemeral cfg; ts_calls := [] |};
            localClient := None;
            hostname := Hostname cfg;
            stateDir := StateDir cfg;
            started := false;
            tailscaleIP := "";
            tailscaleIPv6 := "" |}
  end.

(** What one turn of the waiting loop of [Start] meets: either the
    context is already done, or [StatusWithoutPeers] answers. *)
Inductive Poll :=
| CtxDone (err : string)
| StatusReply (r : result Status).

(** The surroundings of one call of [Start]: the answer of
    [s.server.LocalClient()], the answer of the first
    [StatusWithoutPeers], and what the following turns of the loop meet. *)
Record StartEnv := {
  localClientReply : result nat;
  firstStatus : result Status;
  polls : list Poll;
}.

(** A call either returns (with [nil] or an error) or is still in its
    loop when the scripted answers run out. *)
Inductive Outcome :=
| Returned (err : option string)
| Blocked.

Fixpoint waitRunning (status : Status) (script : list Poll)
    : option (result Status) :=
  if String.eqb (BackendState status) Running then Some (Ok status)
  else
    match script with
    | [] => None
    | CtxDone e :: _ => Some (Err e)
    | StatusReply (Err e) :: _ => Some (Err (wrap "failed to get status" e))
    | StatusReply (Ok status') :: rest => waitRunning status' rest
    end.

Definition assignIP (s : Server) (ip : Addr) : Server :=
  if Is4 ip then set_tailscaleIP (text ip) s
  else if Is6 ip then set_tailscaleIPv6 (text ip) s
  else s.

Definition assignIPs (status : Status) (s : Server) : Server :=
  match Self status with
  | Some self =>
      if (0 <? length (TailscaleIPs self))%nat
      then fold_left assignIP (TailscaleIPs self) s
      else s
  | None => s
  end.

Definition Start (s : Server) (w : StartEnv) : Outcome * Server :=
  if started s then (Returned (Some "server already started"), s)
  else
    let s0 := set_server (invoke CallLocalClient (server s)) s in
    match localClientReply w with
    | Err e => (Returned (Some (wrap "failed to get local client" e)), s0)
    | Ok lc =>
        let s1 := set_localClient (Some lc) s0 in
        match firstStatus w with
        | Err e => (Returned (Some (wrap "failed to get status" e)), s1)
        | Ok status =>
            match waitRunning status (polls w) with
            | None => (Blocked, s1)
            | Some (Err e) => (Returned (Some e), s1)
            | Some (Ok status') =>
                (Returned None, set_started true (assignIPs status' s1))
            end
        end
    end.

(** [Close]; [closeReply] is the error of [s.server.Close()], if any. *)
Definition Close (s : Server) (closeReply : option string)
    : option string * Server :=
  if negb (started s) then (None, s)
  else
    let s0 := set_server (invoke CallClose (server s)) s in
    match closeReply with
    | Some e => (Some (wrap "failed to close tsnet server" e), s0)
    | None => (None, set_started false s0)
    end.

(** Examples. *)
Definition fresh : Server :=
  {| server := {| ts_Hostname := "skopos-dnsmon"; ts_Dir := "./tsnet.tmp/";
                  ts_AuthKey := "tskey-auth-1"; ts_Ephemeral := false;
                  ts_calls := [] |};
     localClient := None; hostname := "skopos-dnsmon";
     stateDir := "./tsnet.tmp/"; started := false;
     tailscaleIP := ""; tailscaleIPv6 := "" |}.

Definition starting : Status := {| BackendState := "Starting"; Self := None |}.

Definition running : Status :=
  {| BackendState := "Running";
     Self := Some {| TailscaleIPs :=
                       [ {| kind := V4; text := "100.64.0.7" |};
                         {| kind := V6; text := "fd7a:115c:a1e0::7" |} ] |} |}.

Definition env_up : StartEnv :=
  {| localClientReply := Ok 1%nat;
     firstStatus := Ok starting;
     polls := [StatusReply (Ok starting); StatusReply (Ok running)] |}.

Definition env_cancelled : StartEnv :=
  {| localClientReply := Ok 1%nat;
     firstStatus := Ok starting;
     polls := [StatusReply (Ok starting); CtxDone "context canceled"] |}.

Definition up : Server := (Start fresh env_up).2.

(** A turn of the loop after which [Start] returns: the context is done,
    the status call fails, or the backend runs. *)
Definition decisive (p : Poll) : bool :=
  match p with
  | CtxDone _ => true
  | StatusReply (Err _) => true
  | StatusReply (Ok status) => String.eqb (BackendState status) Running
  end.

(** [Listen]; [tsnetListen] is what [s.server.Listen] answers, a listener
    handle or an error.  The call changes no field of the [Server]. *)
Definition Listen (s : Server) (network address : string)
    (tsnetListen : string -> string -> result nat) : result nat :=
  if negb (started s) then Err "server not started"
  else tsnetListen network address.

(** The accessors. *)
Definition getLocalClient (s : Server) : LocalClient := localClient s.
Definition TailscaleIP (s : Server) : string := tailscaleIP s.
Definition TailscaleIPv6 (s : Server) : string := tailscaleIPv6 s.
Definition getHostname (s : Server) : string := hostname s.
Definition StateDirPath (s : Server) : string := stateDir s.

(** The method [Status]; [clientStatus] is what [s.localClient.Status]
    answers. *)
Definition ServerStatus (s : Server) (clientStatus : result Status)
    : result Status :=
  if negb (started s) then Err "server not started"
  else clientStatus.

(** [CleanupStateDir]; [removeAll] is the error of [os.RemoveAll], if any.
    The second component lists the paths handed to [os.RemoveAll]. *)
Definition CleanupStateDir (s : Server) (removeAll : string -> option string)
    : option string * list string :=
  if started s
  then (Some "cannot cleanup state directory while server is running", [])
  else
    match removeAll (stateDir s) with
    | Some e => (Some (wrap "failed to remove state directory" e), [stateDir s])
    | None => (None, [stateDir s])
    end.

(** [StateFileExists]; [stat] tells whether [os.Stat] succeeds on a path. *)
Definition StateFileExists (Join : list string -> string)
    (stat : string -> bool) (s : Server) : bool :=
  stat (Join [stateDir s; "tailscaled.state"]).

(** The addresses of a status: those of [Self], none without [Self]. *)
Definition selfIPs (status : Status) : list Addr :=
  match Self status with
  | Some self => TailscaleIPs self
  | None => []
  end.

(** The printed form of the last address of a list that [pick] accepts. *)
Definition lastText (pick : Addr -> bool) (ips : list Addr) : option string :=
  last (text <$> List.filter pick ips).

(** How a call of [Start] on a server that is not started ends, read off
    its surroundings alone. *)
Definition startOutcome (w : StartEnv) : Outcome :=
  match localClientReply w with
  | Err e => Returned (Some (wrap "failed to get local client" e))
  | Ok _ =>
      match firstStatus w with
      | Err e => Returned (Some (wrap "failed to get status" e))
      | Ok status =>
          match waitRunning status (polls w) with
          | None => Blocked
          | Some (Err e) => Returned (Some e)
          | Some (Ok _) => Returned None
          end
      end
  end.

(** The fields that identify the node: host name, state directory and the
    configuration of the wrapped tsnet server. *)
Definition same_identity (s s' : Server) : Prop :=
  hostname s' = hostname s /\ stateDir s' = stateDir s /\
  ts_Hostname (server s') = ts_Hostname (server s) /\
  ts_Dir (server s') = ts_Dir (server s) /\
  ts_AuthKey (server s') = ts_AuthKey (server s) /\
  ts_Ephemeral (server s') = ts_Ephemeral (server s).

(** More surroundings for the examples. *)
Definition env_running_cancelled : StartEnv :=
  {| localClientReply := Ok 2%nat;
     firstStatus := Ok running;
     polls := [CtxDone "context canceled"] |}.

Definition env_no_status : StartEnv :=
  {| localClientReply := Ok 3%nat;
     firstStatus := Err "connection refused";
     polls := [] |}.

Definition running_bare : Status :=
  {| BackendState := "Running"; Self := None |}.

Definition env_up_bare : StartEnv :=
  {| localClientReply := Ok 4%nat;
     firstStatus := Ok running_bare;
     polls := [] |}.

Definition listener_ok : string -> string -> result nat := fun _ _ => Ok 7%nat.

Definition remove_ok : string -> option string := fun _ => None.

End Tailscale.

(** ** cmd/dnsmon/dnsmon.go *)
Module Dnsmon.

(** The signals [main] subscribes to with [signal.Notify]. *)
Inductive Signal := Interrupt | SIGTERM | SIGQUIT.

(** Everything outside the process that one run of [main] meets. *)
Record World := {
  os : Config.OS;
  mkdirAll : option string;
  startEnv : Tailscale.StartEnv;
  signal : option Signal;
  closeReply : option string;
}.

(** How the run ends: with an exit code, or not at all (the process is
    still waiting, in [Start] or for a signal). *)
Inductive Exit :=
| Exited (code : Z)
| Alive.

(** The [tailscale.Config] that [main] builds from the loaded
    configuration. *)
Definition tsConfig (cfg : Config.Config) : Tailscale.Config :=
  {| Tailscale.Hostname := Config.Hostname (Config.Tailscale cfg);
     Tailscale.StateDir := Config.StateDir (Config.Tailscale cfg);
     Tailscale.AuthKey := Config.AuthKey (Config.Tailscale cfg);
     Tailscale.Ephemeral := false |}.

Section Main.
Variable ParseDuration : string -> option Go.Duration.
Variable Atoi : string -> option Z.
Variable Join : list string -> string.

Definition main (w : World) : Exit :=
  match Config.Load ParseDuration Atoi Join (os w) with
  | Err _ => Exited 5
  | Ok cfg =>
      match Tailscale.New (tsConfig cfg) (mkdirAll w) with
      | Err _ => Exited 5
      | Ok ts =>
          match Tailscale.Start ts (startEnv w) with
          | (Tailscale.Returned (Some _), _) => Exited 5
          | (Tailscale.Blocked, _) => Alive
          | (Tailscale.Returned None, ts') =>
              match signal w with
              | None => Alive
              | Some _ =>
                  let '(_, _) := Tailscale.Close ts' (closeReply w) in
                  Exited 0
              end
          end
      end
  end.

(** Start-up succeeds: the configuration loads, the server is created
    and [Start] returns [nil]. *)
Definition startup_ok (w : World) : Prop :=
  exists cfg ts ts',
    Config.Load ParseDuration Atoi Join (os w) = Ok cfg /\
    Tailscale.New (tsConfig cfg) (mkdirAll w) = Ok ts /\
    Tailscale.Start ts (startEnv w) = (Tailscale.Returned None, ts').

End Main.

Definition world_clean : World :=
  {| os := Config.os_defaults; mkdirAll := None;
     startEnv := Tailscale.env_up; signal := Some SIGTERM;
     closeReply := None |}.

Definition world_no_statedir : World :=
  {| os := Config.os_defaults; mkdirAll := Some "permission denied";
     startEnv := Tailscale.env_up; signal := Some SIGTERM;
     closeReply := None |}.

Definition world_cancelled : World :=
  {| os := Config.os_defaults; mkdirAll := None;
     startEnv := Tailscale.env_cancelled; signal := Some SIGTERM;
     closeReply := None |}.

Definition world_no_authkey : World :=
  {| os := {| Config.environ := ∅; Config.dockerenv := true;
              Config.DataHome := "" |};
     mkdirAll := None; startEnv := Tailscale.env_up;
     signal := Some SIGTERM; closeReply := None |}.

Definition world_waiting : World :=
  {| os := Config.os_defaults; mkdirAll := None;
     startEnv := Tailscale.env_up; signal := None;
     closeReply := None |}.

End Dnsmon.

(** ** The resolver inventory reconciliation engine

    The repository has no source for the engine yet; every definition of
    this module follows the wording of the design document. *)
Module Engine.

(** Modelled from the spec: the status of a resolver node (no source file
    declares it): "one of Unknown | Healthy | Unhealthy | Removed". *)
Inductive Status := Unknown | Healthy | Unhealthy | Removed.

(** Modelled from the spec: the origin of a resolver node (no source file
    declares it): "Discovered (found via initial listing) or External
    (added via RPC)". *)
Inductive Source := Discovered | External.

#[global] Instance Status_eq_dec : EqDecision Status.
Proof. solve_decision. Defined.

(** Modelled from the spec: the [ResolverNode] record of the data model
    (no source file declares it): "id", "hostname, ipv4, ipv6: addressing
    information", "status: one of Unknown | Healthy | Unhealthy |
    Removed", "consecutiveFailures: count since last success",
    "lastCheckedAt", "source: Discovered or External". *)
Record ResolverNode := {
  id : string;
  hostname : string;
  ipv4 : string;
  ipv6 : string;
  status : Status;
  consecutiveFailures : Z;
  lastCheckedAt : Z;
  source : Source;
}.

(** Modelled from the spec: the [Inventory], a "mapping from id to
    ResolverNode" (the store is not implemented in the sources). *)
Abbreviation Inventory := (gmap string ResolverNode).

(** Modelled from the spec: the [HealthCheckResult] value "(nodeId,
    success, observedAt) produced by one probe" (the health checker is
    not implemented in the sources). *)
Record HealthCheckResult := {
  nodeId : string;
  success : bool;
  observedAt : Z;
}.

Definition set_addressing (new old : ResolverNode) : ResolverNode :=
  {| id := id old; hostname := hostname new; ipv4 := ipv4 new;
     ipv6 := ipv6 new; status := status old;
     consecutiveFailures := consecutiveFailures old;
     lastCheckedAt := lastCheckedAt old; source := source old |}.

Definition set_status (st : Status) (n : ResolverNode) : ResolverNode :=
  {| id := id n; hostname := hostname n; ipv4 := ipv4 n; ipv6 := ipv6 n;
     status := st; consecutiveFailures := consecutiveFailures n;
     lastCheckedAt := lastCheckedAt n; source := source n |}.

Definition checked (st : Status) (failures now : Z) (n : ResolverNode)
    : ResolverNode :=
  {| id := id n; hostname := hostname n; ipv4 := ipv4 n; ipv6 := ipv6 n;
     status := st; consecutiveFailures := failures;
     lastCheckedAt := now; source := source n |}.

Definition status_of (i : string) (inv : Inventory) : option Status :=
  status <$> inv !! i.

(** *** Inventory store *)

(** Modelled from the spec: the store operation [Upsert] (not
    implemented in the sources): "inserts a new node or updates
    addressing fields of an existing one; never regresses status or
    consecutiveFailures". *)
Definition Upsert (node : ResolverNode) (inv : Inventory) : Inventory :=
  match inv !! id node with
  | None => <[id node := node]> inv
  | Some old => <[id node := set_addressing node old]> inv
  end.

(** Modelled from the spec: the store operation [MarkRemoved] (not
    implemented in the sources): RemoveNode "sets status to Removed";
    "removing a non-existent or already-removed id is a no-op success". *)
Definition MarkRemoved (i : string) (inv : Inventory)
    : result unit * Inventory :=
  match inv !! i with
  | None => (Ok tt, inv)
  | Some n =>
      match status n with
      | Removed => (Ok tt, inv)
      | _ => (Ok tt, <[i := set_status Removed n]> inv)
      end
  end.

(** Modelled from the spec: the store operation [RecordCheck] (not
    implemented in the sources), the health state machine:
    "Unknown --success--> Healthy", "Healthy --failure--> Healthy
    (failures<threshold)", "Healthy --failure, count==threshold-->
    Unhealthy", "Unhealthy --success--> Healthy", "Removed is terminal
    and absorbing"; consecutiveFailures is the "count since last success,
    reset on success"; the result says "whether a status transition
    occurred"; [now] is the time of the probe, kept as lastCheckedAt.
    Where the document lists no transition (a failure of an
    Unknown or Unhealthy node, a success of a Healthy one) the status
    stays.  A Healthy node whose count has passed the threshold, which a
    store that counts from zero never holds, is marked Unhealthy. *)
Definition RecordCheck (threshold now : Z) (i : string) (ok : bool)
    (inv : Inventory) : bool * Inventory :=
  match inv !! i with
  | None => (false, inv)
  | Some n =>
      match status n, ok with
      | Removed, _ => (false, inv)
      | Healthy, true => (false, <[i := checked Healthy 0 now n]> inv)
      | (Unknown | Unhealthy), true =>
          (true, <[i := checked Healthy 0 now n]> inv)
      | Healthy, false =>
          let count := (consecutiveFailures n + 1)%Z in
          if (count <? threshold)%Z
          then (false, <[i := checked Healthy count now n]> inv)
          else (true, <[i := checked Unhealthy count now n]> inv)
      | (Unknown | Unhealthy) as st, false =>
          (false, <[i := checked st (consecutiveFailures n + 1)%Z now n]> inv)
      end
  end.

(** Folding one probe result into the store. *)
Definition RecordResult (threshold : Z) (r : HealthCheckResult)
    (inv : Inventory) : bool * Inventory :=
  RecordCheck threshold (observedAt r) (nodeId r) (success r) inv.

(** Folding a sequence of probe results, oldest first; the flags are the
    results of the successive [RecordCheck] calls. *)
Fixpoint RecordAll (threshold : Z) (rs : list HealthCheckResult)
    (inv : Inventory) : list bool * Inventory :=
  match rs with
  | [] => ([], inv)
  | r :: rs' =>
      let '(flag, inv') := RecordResult threshold r inv in
      let '(flags, inv'') := RecordAll threshold rs' inv' in
      (flag :: flags, inv'')
  end.

(** Modelled from the spec: the store operation [Purge] (not implemented
    in the sources): "deletes the record; only valid when status is
    Removed"; an invalid call is rejected and changes nothing. *)
Definition Purge (i : string) (inv : Inventory) : result unit * Inventory :=
  match inv !! i with
  | None => (Err "purge: unknown node", inv)
  | Some n =>
      match status n with
      | Removed => (Ok tt, delete i inv)
      | _ => (Err "purge: node is not removed", inv)
      end
  end.

(** Modelled from the spec: the store operation [Snapshot] (not
    implemented in the sources): "a consistent point-in-time copy". *)
Definition Snapshot (inv : Inventory) : Inventory := inv.

(** *** Reconciler *)

(** Modelled from the spec: the state the engine works on (the engine is
    not implemented in the sources): the inventory, and "the live DNS
    resolver set" held by the control plane behind the Tailnet Adapter. *)
Record World := {
  inventory : Inventory;
  live : gset string;
}.

(** Modelled from the spec: the answers of the Tailnet Adapter during one
    run (the adapter is an external collaborator, not in the sources):
    "ReadDNSResolvers() -> set<address>", "WriteDNSResolvers(set<address>)
    -> error-or-nil", "All calls may return a transient error"; a failed
    write leaves some resolver set behind, possibly a partial one. *)
Inductive WriteReply :=
| WriteOk
| WriteFailed (msg : string) (residue : gset string).

Record AdapterRun := {
  readError : option string;
  writeReply : WriteReply;
}.

(** What one run did: its result, the sets it wrote through the adapter,
    and the ids it purged. *)
Record Report := {
  outcome : result unit;
  writes : list (gset string);
  purged : list string;
}.

(** Modelled from the spec: the calls of the RPC surface that change the
    inventory (the RPC server is not implemented in the sources):
    "AddNode{id, hostname, ipv4, ipv6}" and "RemoveNode{id}". *)
Inductive Call :=
| AddNode (i host v4 v6 : string)
| RemoveNode (i : string).

(** Modelled from the spec: the record an [AddNode] call creates (the RPC
    server is not implemented in the sources): a node added through the
    RPC has source External and, as in Scenario B, "status Unknown". *)
Definition newNode (i host v4 v6 : string) : ResolverNode :=
  {| id := i; hostname := host; ipv4 := v4; ipv6 := v6;
     status := Unknown; consecutiveFailures := 0;
     lastCheckedAt := 0; source := External |}.

(** What an RPC call gives: the reply to the caller, the report of the
    reconciliation it triggered, and the world it leaves. *)
Record Served := {
  reply : result unit;
  report : Report;
  world : World;
}.

Section Reconciler.
(** The design document speaks of "node.address" without saying which
    of the addressing fields it is; the reconciler is modelled for any
    choice. *)
Variable address : ResolverNode -> string.

(** Modelled from the spec: the desired set of the Reconciler (not
    implemented in the sources): "desired = { node.address : node in
    inventory where status == Healthy }". *)
Definition desired (inv : Inventory) : gset string :=
  map_img (address <$> filter (fun kv => status kv.2 = Healthy) inv).

(** Modelled from the spec: the nodes the Reconciler purges (not
    implemented in the sources): "every node that is Removed and now
    excluded from the live set". *)
Definition confirmed (current : gset string) (inv : Inventory) : list string :=
  (map_to_list
     (filter (fun kv => status kv.2 = Removed /\ address kv.2 ∉ current) inv)).*1.

Definition purgeAll (ids : list string) (inv : Inventory) : Inventory :=
  foldr (fun i acc => (Purge i acc).2) inv ids.

(** Modelled from the spec: one run of the Reconciler (not implemented
    in the sources): "read the live DNS resolver set from the Tailnet
    Adapter; compute the symmetric difference; if non-empty, write the
    desired set through the Tailnet Adapter [...]. On success, for
    every node that is Removed and now excluded from the live set,
    call Purge. On adapter write failure, leave the inventory
    untouched".  A failing read abandons the run. *)
Definition Reconcile (o : AdapterRun) (w : World) : Report * World :=
  match readError o with
  | Some e =>
      ({| outcome := Err (wrap "read resolvers" e);
          writes := []; purged := [] |}, w)
  | None =>
      let want := desired (Snapshot (inventory w)) in
      let diff := (want ∖ live w) ∪ (live w ∖ want) in
      if decide (diff = ∅) then
        let ids := confirmed (live w) (inventory w) in
        ({| outcome := Ok tt; writes := []; purged := ids |},
         {| inventory := purgeAll ids (inventory w); live := live w |})
      else
        match writeReply o with
        | WriteFailed e residue =>
            ({| outcome := Err (wrap "write resolvers" e);
                writes := [want]; purged := [] |},
             {| inventory := inventory w; live := residue |})
        | WriteOk =>
            let ids := confirmed want (inventory w) in
            ({| outcome := Ok tt; writes := [want]; purged := ids |},
             {| inventory := purgeAll ids (inventory w); live := want |})
        end
  end.

(** *** RPC server *)

(** Modelled from the spec: the inventory mutation of an RPC call (the
    RPC server is not implemented in the sources): "AddNode(id,
    hostname, ipv4, ipv6) -> Upsert", "RemoveNode(id) -> MarkRemoved". *)
Definition mutate (c : Call) (inv : Inventory) : result unit * Inventory :=
  match c with
  | AddNode i host v4 v6 => (Ok tt, Upsert (newNode i host v4 v6) inv)
  | RemoveNode i => MarkRemoved i inv
  end.

(** Modelled from the spec: an RPC handler (the RPC server is not
    implemented in the sources): the mutation, "then trigger
    reconciliation"; "adapter write failures are reported but do not
    fail the inventory mutation that preceded them", and an adapter
    failure gives "an explicit error result to the caller". *)
Definition handle (c : Call) (o : AdapterRun) (w : World) : Served :=
  let '(stored, inv') := mutate c (inventory w) in
  let '(rep, w') := Reconcile o {| inventory := inv'; live := live w |} in
  {| reply := match stored with Ok _ => outcome rep | Err e => Err e end;
     report := rep;
     world := w' |}.

(** A sequence of calls, in arrival order, each with what the adapter
    does during the reconciliation it triggers: the replies and the
    final world. *)
Fixpoint serve (cs : list (Call * AdapterRun)) (w : World)
    : list (result unit) * World :=
  match cs with
  | [] => ([], w)
  | (c, o) :: cs' =>
      let s := handle c o w in
      let '(replies, w') := serve cs' (world s) in
      (reply s :: replies, w')
  end.

(** Every world the sequence of calls goes through, the first included. *)
Fixpoint trace (cs : list (Call * AdapterRun)) (w : World) : list World :=
  match cs with
  | [] => [w]
  | (c, o) :: cs' => w :: trace cs' (world (handle c o w))
  end.

End Reconciler.

(** Modelled from the spec: the reference semantics of the testable
    property on membership, "applying idempotent set-insert/set-delete
    in arrival order". *)
Definition applyCall (c : Call) (s : gset string) : gset string :=
  match c with
  | AddNode i _ _ _ => {[i]} ∪ s
  | RemoveNode i => s ∖ {[i]}
  end.

Definition applyCalls (cs : list Call) (s : gset string) : gset string :=
  fold_left (fun acc c => applyCall c acc) cs s.

(** The ids of the inventory. *)
Definition members (w : World) : gset string := dom (inventory w).

(** No record is waiting to be purged. *)
Definition settled (w : World) : Prop :=
  map_Forall (fun _ n => status n <> Removed) (inventory w).

#[global] Instance settled_dec w : Decision (settled w).
Proof. unfold settled. apply _. Defined.

(** A node counting consecutive failures is either Healthy below the
    threshold or Unhealthy at or above it. *)
Definition counting (threshold : Z) (n : ResolverNode) : Prop :=
  (status n = Healthy /\ (consecutiveFailures n < threshold)%Z) \/
  (status n = Unhealthy /\ (threshold <= consecutiveFailures n)%Z).

(** The invariant of the store on Healthy nodes: their failure count is
    below the threshold. *)
Definition healthy_below (threshold : Z) (inv : Inventory) : Prop :=
  map_Forall (fun _ n => status n = Healthy ->
                         (0 <= consecutiveFailures n < threshold)%Z) inv.

(** Adapter behaviours and inventories used in the examples. *)
Definition adapter_ok : AdapterRun :=
  {| readError := None; writeReply := WriteOk |}.

Definition adapter_down : AdapterRun :=
  {| readError := Some "control plane unreachable";
     writeReply := WriteFailed "control plane unreachable" ∅ |}.

Definition nodeA (st : Status) (failures : Z) : ResolverNode :=
  {| id := "A"; hostname := "resolver-a"; ipv4 := "100.64.0.1";
     ipv6 := "fd7a::1"; status := st; consecutiveFailures := failures;
     lastCheckedAt := 0; source := Discovered |}.

Definition empty_world : World := {| inventory := ∅; live := ∅ |}.

Definition failure (t : Z) : HealthCheckResult :=
  {| nodeId := "A"; success := false; observedAt := t |}.

(** The calls of the counterexample to set semantics: A is added, then
    removed while the control plane cannot be read, then added again. *)
Definition readd_calls : list (Call * AdapterRun) :=
  [ (AddNode "A" "resolver-a" "100.64.0.1" "fd7a::1", adapter_ok);
    (RemoveNode "A", adapter_down);
    (AddNode "A" "resolver-a" "100.64.0.1" "fd7a::1", adapter_ok) ].

(** The same calls when every reconciliation goes through. *)
Definition readd_calls_ok : list (Call * AdapterRun) :=
  [ (AddNode "A" "resolver-a" "100.64.0.1" "fd7a::1", adapter_ok);
    (RemoveNode "A", adapter_ok);
    (AddNode "A" "resolver-a" "100.64.0.1" "fd7a::1", adapter_ok) ].

Definition nodeB (st : Status) : ResolverNode :=
  {| id := "B"; hostname := "resolver-b"; ipv4 := "100.64.0.2";
     ipv6 := "fd7a::2"; status := st; consecutiveFailures := 0;
     lastCheckedAt := 0; source := External |}.

(** A is Healthy, B was removed, and the control plane still lists B
    only. *)
Definition world_diverged : World :=
  {| inventory := <["A" := nodeA Healthy 0]> {["B" := nodeB Removed]};
     live := {["100.64.0.2"]} |}.

Definition world_A (st : Status) : World :=
  {| inventory := {["A" := nodeA st 0]};
     live := match st with Healthy => {["100.64.0.1"]} | _ => ∅ end |}.

End Engine.

(** * Properties *)

(** A decidable statement about concrete maps and sets is settled by
    evaluating its decision procedure. *)
Ltac decide_by_evaluation :=
  match goal with
  | |- ?P => apply (bool_decide_unpack P); vm_compute; exact I
  end.

(** ** The integer parser on a few inputs *)

Example Atoi_word : Go.Atoi "abc" = None.
Proof. reflexivity. Qed.

Example Atoi_zero : Go.Atoi "0" = Some 0%Z.
Proof. reflexivity. Qed.

Example Atoi_negative : Go.Atoi "-42" = Some (-42)%Z.
Proof. reflexivity. Qed.

Example Atoi_sign_only : Go.Atoi "+" = None.
Proof. reflexivity. Qed.

Example Atoi_too_large : Go.Atoi "9223372036854775808" = None.
Proof. reflexivity. Qed.

(** ** Configuration loading *)
Section ConfigFacts.
Import Config.

Variable ParseDuration : string -> option Go.Duration.
Variable Atoi : string -> option Z.
Variable Join : list string -> string.

Local Abbreviation Load := (Config.Load ParseDuration Atoi Join).

Lemma nonempty_false (s : string) : nonempty s = false <-> s = "".
Proof. destruct s; simpl; split; congruence. Qed.

Lemma nonempty_true (s : string) : nonempty s = true <-> s <> "".
Proof. destruct s; simpl; split; congruence. Qed.

Lemma Getenv_unset (os : OS) (key : string) :
  environ os !! key = None -> Getenv os key = "".
Proof. unfold Getenv. intros ->. reflexivity. Qed.

Lemma determineStateDir_total (os : OS) (development : bool) :
  exists dir, determineStateDir Join os development = Ok dir.
Proof.
  unfold determineStateDir.
  destruct development; [eauto |].
  destruct (isRunningInContainer os); eauto.
Qed.

Lemma getDurationOrDefault_unset (os : OS) key d :
  Getenv os key = "" -> getDurationOrDefault ParseDuration os key d = d.
Proof. unfold getDurationOrDefault. intros ->. reflexivity. Qed.

Lemma getDurationOrDefault_invalid (os : OS) key d :
  invalid ParseDuration os key -> getDurationOrDefault ParseDuration os key d = d.
Proof.
  unfold getDurationOrDefault. intros [_ ->].
  destruct (nonempty _); reflexivity.
Qed.

Lemma getIntOrDefault_unset (os : OS) key d :
  Getenv os key = "" -> getIntOrDefault Atoi os key d = d.
Proof. unfold getIntOrDefault. intros ->. reflexivity. Qed.

Lemma getIntOrDefault_invalid (os : OS) key d :
  Atoi (Getenv os key) = None -> getIntOrDefault Atoi os key d = d.
Proof.
  unfold getIntOrDefault. intros ->.
  destruct (nonempty _); reflexivity.
Qed.

Lemma getIntOrDefault_parsed (os : OS) key d n :
  Getenv os key <> "" -> Atoi (Getenv os key) = Some n ->
  getIntOrDefault Atoi os key d = n.
Proof.
  unfold getIntOrDefault. intros Hne ->.
  apply nonempty_true in Hne. rewrite Hne. reflexivity.
Qed.

(** The shape of every result of [Load]. *)
Lemma Load_cases (os : OS) :
  (Getenv os "TS_AUTHKEY" = "" /\ Load os = Err "TS_AUTHKEY is required") \/
  (Getenv os "TS_AUTHKEY" <> "" /\
   exists dir,
     Load os =
     Ok {| Tailscale := {| AuthKey := Getenv os "TS_AUTHKEY";
                           Hostname := getEnvOrDefault os "TS_HOSTNAME" "skopos-dnsmon";
                           StateDir := getEnvOrDefault os "TS_STATE_DIR" dir |};
           HealthCheck :=
             {| Interval := getDurationOrDefault ParseDuration os
                              "HEALTH_CHECK_INTERVAL" (20 * Go.Second)%Z;
                Timeout := getDurationOrDefault ParseDuration os
                             "HEALTH_CHECK_TIMEOUT" (5 * Go.Second)%Z;
                UnhealthyThreshold := getIntOrDefault Atoi os
                                        "UNHEALTHY_THRESHOLD" 1%Z |};
           DNS := {| UpdateTimeout := getDurationOrDefault ParseDuration os
                                        "DNS_UPDATE_TIMEOUT" (10 * Go.Second)%Z |};
           Development := String.eqb (Getenv os "DEVEL") "true" |}).
Proof.
  unfold Config.Load.
  destruct (determineStateDir_total os (String.eqb (Getenv os "DEVEL") "true"))
    as [dir ->].
  destruct (nonempty (Getenv os "TS_AUTHKEY")) eqn:Hkey.
  - right. split; [by apply nonempty_true |]. exists dir. reflexivity.
  - left. split; [by apply nonempty_false |]. reflexivity.
Qed.

(** C3, as amended: [Load] returns an error exactly when TS_AUTHKEY is
    unset or empty.  An invalid value of HEALTH_CHECK_INTERVAL,
    HEALTH_CHECK_TIMEOUT, UNHEALTHY_THRESHOLD or DNS_UPDATE_TIMEOUT never
    makes it fail: the default (20 s, 5 s, 1, 10 s) is used in its
    place. *)
Theorem Load_error_iff_authkey_missing (os : OS) :
  ((exists e, Load os = Err e) <-> Getenv os "TS_AUTHKEY" = "") /\
  (forall cfg, Load os = Ok cfg ->
     (invalid ParseDuration os "HEALTH_CHECK_INTERVAL" ->
        Interval (HealthCheck cfg) = (20 * Go.Second)%Z) /\
     (invalid ParseDuration os "HEALTH_CHECK_TIMEOUT" ->
        Timeout (HealthCheck cfg) = (5 * Go.Second)%Z) /\
     (invalid Atoi os "UNHEALTHY_THRESHOLD" ->
        UnhealthyThreshold (HealthCheck cfg) = 1%Z) /\
     (invalid ParseDuration os "DNS_UPDATE_TIMEOUT" ->
        UpdateTimeout (DNS cfg) = (10 * Go.Second)%Z)).
Proof.
  destruct (Load_cases os) as [[Hkey HL] | [Hkey [dir HL]]]; rewrite HL.
  - split; [split; eauto | intros cfg [=]].
  - split.
    + split; [intros [e [=]] | intros; contradiction].
    + intros cfg [= <-]. simpl.
      repeat split; intros Hbad.
      * by apply getDurationOrDefault_invalid.
      * by apply getDurationOrDefault_invalid.
      * apply getIntOrDefault_invalid, Hbad.
      * by apply getDurationOrDefault_invalid.
Qed.

(** C4, as amended: when [Load] succeeds, the threshold is 1 if
    UNHEALTHY_THRESHOLD is unset, empty or rejected by [strconv.Atoi],
    and otherwise it is the parsed integer itself, of either sign; so it
    is at least 1 exactly when the variable is unset, empty, rejected, or
    parses to an integer that is at least 1. *)
Theorem Load_threshold_is_parsed_or_default (os : OS) (cfg : Config) :
  Load os = Ok cfg ->
  let raw := Getenv os "UNHEALTHY_THRESHOLD" in
  (raw = "" \/ Atoi raw = None -> UnhealthyThreshold (HealthCheck cfg) = 1%Z) /\
  (forall n, raw <> "" -> Atoi raw = Some n ->
     UnhealthyThreshold (HealthCheck cfg) = n) /\
  ((1 <= UnhealthyThreshold (HealthCheck cfg))%Z <->
   raw = "" \/ Atoi raw = None \/ exists n, Atoi raw = Some n /\ (1 <= n)%Z).
Proof.
  intros HL raw.
  destruct (Load_cases os) as [[_ HE] | [_ [dir HO]]]; [congruence |].
  rewrite HO in HL. injection HL as <-. simpl. fold raw.
  assert (Hd : raw = "" \/ Atoi raw = None ->
               getIntOrDefault Atoi os "UNHEALTHY_THRESHOLD" 1 = 1%Z).
  { intros [H | H];
      [by apply getIntOrDefault_unset | by apply getIntOrDefault_invalid]. }
  assert (Hp : forall n, raw <> "" -> Atoi raw = Some n ->
               getIntOrDefault Atoi os "UNHEALTHY_THRESHOLD" 1 = n).
  { intros n H1 H2. by apply getIntOrDefault_parsed. }
  split; [exact Hd | split; [exact Hp |]].
  destruct (decide (raw = "")) as [He | Hne].
  { rewrite Hd by auto. split; [auto | lia]. }
  destruct (Atoi raw) as [n |] eqn:Hn.
  - rewrite (Hp n Hne eq_refl). split.
    + intros; right; right; eauto.
    + intros [? | [[=] | [m [[= <-] Hm]]]]; [contradiction | exact Hm].
  - rewrite Hd by auto. split; [auto | lia].
Qed.

(** C10: with TS_AUTHKEY non-empty and the health-check and DNS
    variables unset, [Load] succeeds and returns Interval = 20 s,
    Timeout = 5 s, UnhealthyThreshold = 1 and DNS.UpdateTimeout = 10 s
    (durations in nanoseconds). *)
Theorem Load_defaults (os : OS) :
  Getenv os "TS_AUTHKEY" <> "" ->
  environ os !! "HEALTH_CHECK_INTERVAL" = None ->
  environ os !! "HEALTH_CHECK_TIMEOUT" = None ->
  environ os !! "UNHEALTHY_THRESHOLD" = None ->
  environ os !! "DNS_UPDATE_TIMEOUT" = None ->
  exists cfg,
    Load os = Ok cfg /\
    Interval (HealthCheck cfg) = 20000000000%Z /\
    Timeout (HealthCheck cfg) = 5000000000%Z /\
    UnhealthyThreshold (HealthCheck cfg) = 1%Z /\
    UpdateTimeout (DNS cfg) = 10000000000%Z.
Proof.
  intros Hkey Hi Ht Hu Hd.
  destruct (Load_cases os) as [[HE _] | [_ [dir HO]]]; [contradiction |].
  eexists. split; [exact HO |]. simpl.
  rewrite !getDurationOrDefault_unset, getIntOrDefault_unset
    by (by apply Getenv_unset).
  repeat split; reflexivity.
Qed.

End ConfigFacts.

(** C3, counterexample: UNHEALTHY_THRESHOLD is set to "abc", which
    [strconv.Atoi] rejects, and [Load] still succeeds, with the threshold
    replaced by 1. *)
Lemma Load_accepts_invalid_threshold :
  Config.invalid Go.Atoi Config.os_bad_threshold "UNHEALTHY_THRESHOLD" /\
  Config.Load Config.no_duration Go.Atoi Config.no_join Config.os_bad_threshold
  = Ok {| Config.Tailscale := {| Config.AuthKey := "tskey-auth-1";
                                 Config.Hostname := "skopos-dnsmon";
                                 Config.StateDir := "./tsnet.tmp/" |};
          Config.HealthCheck := {| Config.Interval := 20000000000%Z;
                                   Config.Timeout := 5000000000%Z;
                                   Config.UnhealthyThreshold := 1%Z |};
          Config.DNS := {| Config.UpdateTimeout := 10000000000%Z |};
          Config.Development := true |}.
Proof. split; [split; [discriminate | reflexivity] | vm_compute; reflexivity]. Qed.

(** The same holds whatever the duration parser and the path joiner are,
    as the machine of the counterexample reaches neither. *)
Lemma Load_accepts_invalid_threshold_any pd join :
  is_ok (Config.Load pd Go.Atoi join Config.os_bad_threshold) = true.
Proof. reflexivity. Qed.

Lemma Load_error_iff_authkey_missing_witness :
  Config.invalid Go.Atoi Config.os_bad_threshold "UNHEALTHY_THRESHOLD" /\
  forall cfg,
    Config.Load Config.no_duration Go.Atoi Config.no_join Config.os_bad_threshold
    = Ok cfg ->
    Config.UnhealthyThreshold (Config.HealthCheck cfg) = 1%Z.
Proof.
  split; [split; [discriminate | reflexivity] |].
  intros cfg H.
  apply (Load_error_iff_authkey_missing Config.no_duration Go.Atoi
           Config.no_join Config.os_bad_threshold); [exact H |].
  split; [discriminate | reflexivity].
Defined.

(** C4, counterexample: UNHEALTHY_THRESHOLD is set to "0"; [Load]
    succeeds and returns a threshold of 0. *)
Lemma Load_returns_zero_threshold :
  exists cfg,
    Config.Load Config.no_duration Go.Atoi Config.no_join Config.os_zero_threshold
    = Ok cfg /\
    Config.UnhealthyThreshold (Config.HealthCheck cfg) = 0%Z /\
    ~ (1 <= Config.UnhealthyThreshold (Config.HealthCheck cfg))%Z.
Proof. eexists. split; [vm_compute; reflexivity |]. simpl. split; [reflexivity | lia]. Qed.

Lemma Load_threshold_is_parsed_or_default_witness :
  exists cfg,
    Config.Load Config.no_duration Go.Atoi Config.no_join Config.os_zero_threshold
    = Ok cfg /\
    forall n, Config.Getenv Config.os_zero_threshold "UNHEALTHY_THRESHOLD" <> "" ->
              Go.Atoi (Config.Getenv Config.os_zero_threshold "UNHEALTHY_THRESHOLD")
              = Some n ->
              Config.UnhealthyThreshold (Config.HealthCheck cfg) = n.
Proof.
  eexists. split; [vm_compute; reflexivity |].
  apply (Load_threshold_is_parsed_or_default Config.no_duration Go.Atoi
           Config.no_join Config.os_zero_threshold).
  vm_compute; reflexivity.
Defined.

Lemma Load_defaults_witness :
  exists cfg,
    Config.Load Config.no_duration Go.Atoi Config.no_join Config.os_defaults
    = Ok cfg /\
    Config.Interval (Config.HealthCheck cfg) = 20000000000%Z /\
    Config.Timeout (Config.HealthCheck cfg) = 5000000000%Z /\
    Config.UnhealthyThreshold (Config.HealthCheck cfg) = 1%Z /\
    Config.UpdateTimeout (Config.DNS cfg) = 10000000000%Z.
Proof.
  apply (Load_defaults Config.no_duration Go.Atoi Config.no_join
           Config.os_defaults);
    [discriminate | reflexivity | reflexivity | reflexivity | reflexivity].
Defined.

(** ** Lifecycle of the Tailscale server *)
Section TailscaleFacts.
Import Tailscale.

Lemma started_set_server t s : started (set_server t s) = started s.
Proof. reflexivity. Qed.

Lemma started_set_localClient lc s : started (set_localClient lc s) = started s.
Proof. reflexivity. Qed.

Lemma started_assignIP s ip : started (assignIP s ip) = started s.
Proof. unfold assignIP. destruct (Is4 ip), (Is6 ip); reflexivity. Qed.

Lemma started_fold_assignIP ips s :
  started (fold_left assignIP ips s) = started s.
Proof.
  revert s. induction ips as [| ip ips IH]; intros s; simpl; [reflexivity |].
  rewrite IH. apply started_assignIP.
Qed.

Lemma started_assignIPs status s : started (assignIPs status s) = started s.
Proof.
  unfold assignIPs. destruct (Self status) as [self |]; [| reflexivity].
  destruct (0 <? _)%nat; [apply started_fold_assignIP | reflexivity].
Qed.

(** The waiting loop returns as soon as the script holds a decisive turn. *)
Lemma waitRunning_returns script status :
  existsb decisive script = true ->
  exists r, waitRunning status script = Some r.
Proof.
  revert status. induction script as [| p script IH]; intros status H.
  - discriminate.
  - simpl. destruct (String.eqb (BackendState status) Running); [eauto |].
    destruct p as [e | [status' | e]]; eauto.
    simpl in H. destruct (String.eqb (BackendState status') Running) eqn:Hr.
    + destruct script; simpl; rewrite Hr; eauto.
    + apply IH. exact H.
Qed.

(** [Start] on a server that is not started: what each path leaves. *)
Lemma Start_not_started s w :
  started s = false ->
  let '(o, s') := Start s w in
  match o with
  | Returned None => started s' = true
  | Returned (Some _) | Blocked => started s' = false
  end.
Proof.
  intros Hs. unfold Start. rewrite Hs.
  destruct (localClientReply w) as [lc | e]; [| exact Hs].
  destruct (firstStatus w) as [status | e]; [| exact Hs].
  destruct (waitRunning status (polls w)) as [[status' | e] |];
    [reflexivity | exact Hs | exact Hs].
Qed.

(** C8: [Start] on a started server returns an error and leaves the
    server as it is; on a server that is not started, every path that
    returns an error (no local client, a failing status call, a
    cancelled context) leaves [started] false, and [started] is true
    afterwards only if [Start] returned [nil]. *)
Theorem Start_guards_started (s : Server) (w : StartEnv) :
  (started s = true ->
     Start s w = (Returned (Some "server already started"), s)) /\
  (started s = false ->
     (forall e s', Start s w = (Returned (Some e), s') -> started s' = false) /\
     (forall e, localClientReply w = Err e ->
        exists s', Start s w =
                   (Returned (Some (wrap "failed to get local client" e)), s') /\
                   started s' = false) /\
     (forall lc e, localClientReply w = Ok lc -> firstStatus w = Err e ->
        exists s', Start s w =
                   (Returned (Some (wrap "failed to get status" e)), s') /\
                   started s' = false) /\
     (forall lc status e, localClientReply w = Ok lc ->
        firstStatus w = Ok status ->
        waitRunning status (polls w) = Some (Err e) ->
        exists s', Start s w = (Returned (Some e), s') /\ started s' = false) /\
     (forall o s', Start s w = (o, s') ->
        (started s' = true <-> o = Returned None))).
Proof.
  split.
  - intros Hs. unfold Start. rewrite Hs. reflexivity.
  - intros Hs.
    pose proof (Start_not_started s w Hs) as Hall.
    repeat split.
    + intros e s' HS. rewrite HS in Hall. exact Hall.
    + intros e He. unfold Start. rewrite Hs, He. eauto.
    + intros lc e Hlc He. unfold Start. rewrite Hs, Hlc, He. eauto.
    + intros lc status e Hlc Hst Hw. unfold Start.
      rewrite Hs, Hlc, Hst, Hw. eauto.
    + rewrite H in Hall. destruct o as [[e |] |]; congruence.
    + intros ->. rewrite H in Hall. exact Hall.
Qed.

(** C9: [Close] on a server that is not started (never started, or
    closed before) returns [nil] and changes nothing, the wrapped tsnet
    server included; a [Close] that returns [nil] leaves [started]
    false, so the next [Close] returns [nil] and changes nothing. *)
Theorem Close_idempotent (s : Server) (r : option string) :
  (started s = false -> Close s r = (None, s)) /\
  (forall cfg, New cfg None = Ok s -> Close s r = (None, s)) /\
  (forall s', Close s r = (None, s') ->
     started s' = false /\
     forall r', Close s' r' = (None, s') /\
                server (Close s' r').2 = server s').
Proof.
  assert (Hidle : forall s0 r0, started s0 = false -> Close s0 r0 = (None, s0)).
  { intros s0 r0 H0. unfold Close. rewrite H0. reflexivity. }
  split; [apply Hidle |]. split.
  - intros cfg [= <-]. reflexivity.
  - intros s' HC.
    assert (Hs' : started s' = false).
    { unfold Close in HC. destruct (started s) eqn:Hs; simpl in HC.
      - destruct r; [discriminate |]. injection HC as <-. reflexivity.
      - injection HC as <-. exact Hs. }
    split; [exact Hs' |]. intros r'.
    rewrite (Hidle s' r' Hs'). split; reflexivity.
Qed.

(** A started server is closed through exactly one call to the wrapped
    tsnet server. *)
Lemma Close_calls_tsnet_once (s : Server) :
  started s = true ->
  ts_calls (server (Close s None).2) = (ts_calls (server s) ++ [CallClose])%list.
Proof. intros Hs. unfold Close. rewrite Hs. reflexivity. Qed.

End TailscaleFacts.

Example Start_comes_up :
  Tailscale.Start Tailscale.fresh Tailscale.env_up
  = (Tailscale.Returned None, Tailscale.up) /\
  Tailscale.started Tailscale.up = true /\
  Tailscale.tailscaleIP Tailscale.up = "100.64.0.7".
Proof. repeat split. Qed.

Lemma Start_guards_started_witness :
  Tailscale.started Tailscale.up = true /\
  Tailscale.Start Tailscale.up Tailscale.env_up
  = (Tailscale.Returned (Some "server already started"), Tailscale.up) /\
  exists s', Tailscale.Start Tailscale.fresh Tailscale.env_cancelled
             = (Tailscale.Returned (Some "context canceled"), s') /\
             Tailscale.started s' = false.
Proof.
  split; [reflexivity |]. split.
  - apply (Start_guards_started Tailscale.up Tailscale.env_up). reflexivity.
  - apply (Start_guards_started Tailscale.fresh Tailscale.env_cancelled)
      with (lc := 1%nat) (status := Tailscale.starting); reflexivity.
Defined.

Lemma Close_idempotent_witness :
  Tailscale.Close Tailscale.fresh None = (None, Tailscale.fresh) /\
  Tailscale.started (Tailscale.Close Tailscale.up None).2 = false /\
  Tailscale.Close (Tailscale.Close Tailscale.up None).2 (Some "closed twice")
  = (None, (Tailscale.Close Tailscale.up None).2).
Proof.
  split.
  - apply (Close_idempotent Tailscale.fresh None). reflexivity.
  - destruct (Close_idempotent Tailscale.up None) as (_ & _ & H).
    destruct (H (Tailscale.Close Tailscale.up None).2 eq_refl) as [H1 H2].
    split; [exact H1 | apply H2].
Defined.

(** ** Exit codes of dnsmon *)
Section DnsmonFacts.
Import Dnsmon.

Variable ParseDuration : string -> option Go.Duration.
Variable Atoi : string -> option Z.
Variable Join : list string -> string.

Local Abbreviation Load := (Config.Load ParseDuration Atoi Join).
Local Abbreviation main := (Dnsmon.main ParseDuration Atoi Join).
Local Abbreviation startup_ok := (Dnsmon.startup_ok ParseDuration Atoi Join).

Lemma main_after_startup (w : World) :
  startup_ok w ->
  main w = match signal w with Some _ => Exited 0 | None => Alive end.
Proof.
  intros (cfg & ts & ts' & HL & HN & HS).
  unfold Dnsmon.main. rewrite HL, HN, HS.
  destruct (signal w); [| reflexivity].
  destruct (Tailscale.Close ts' (closeReply w)). reflexivity.
Qed.

Lemma main_exit_zero_inv (w : World) :
  main w = Exited 0 -> startup_ok w /\ is_Some (signal w).
Proof.
  unfold Dnsmon.main, Dnsmon.startup_ok.
  destruct (Load (os w)) as [cfg | e] eqn:HL; [| discriminate].
  destruct (Tailscale.New (tsConfig cfg) (mkdirAll w)) as [ts | e] eqn:HN;
    [| discriminate].
  destruct (Tailscale.Start ts (startEnv w)) as [[[e |] |] ts'] eqn:HS;
    [discriminate | | discriminate].
  destruct (signal w) as [sig |]; [| discriminate].
  intros _. split; [| by eexists]. exists cfg, ts, ts'. auto.
Qed.


End DnsmonFacts.

Example main_clean_shutdown :
  Dnsmon.main Config.no_duration Go.Atoi Config.no_join Dnsmon.world_clean
  = Dnsmon.Exited 0.
Proof. vm_compute. reflexivity. Qed.

Example main_no_authkey :
  Dnsmon.main Config.no_duration Go.Atoi Config.no_join Dnsmon.world_no_authkey
  = Dnsmon.Exited 5.
Proof. vm_compute. reflexivity. Qed.

Example main_no_statedir :
  Dnsmon.main Config.no_duration Go.Atoi Config.no_join Dnsmon.world_no_statedir
  = Dnsmon.Exited 5.
Proof. vm_compute. reflexivity. Qed.

Example main_cancelled :
  Dnsmon.main Config.no_duration Go.Atoi Config.no_join Dnsmon.world_cancelled
  = Dnsmon.Exited 5.
Proof. vm_compute. reflexivity. Qed.


(** ** Inventory store: the health state machine *)
Section StoreFacts.
Import Engine.

Implicit Types (inv : Inventory) (n : ResolverNode) (i : string).

Lemma status_of_insert i n inv : status_of i (<[i := n]> inv) = Some (status n).
Proof. unfold status_of. by rewrite lookup_insert_eq. Qed.

Lemma status_of_lookup i n inv :
  inv !! i = Some n -> status_of i inv = Some (status n).
Proof. unfold status_of. by intros ->. Qed.

(** One failed probe of a Healthy node. *)
Lemma RecordCheck_failure_healthy threshold now i inv n :
  inv !! i = Some n -> status n = Healthy ->
  let count := (consecutiveFailures n + 1)%Z in
  RecordCheck threshold now i false inv =
  (negb (count <? threshold)%Z,
   <[i := checked (if (count <? threshold)%Z then Healthy else Unhealthy)
                  count now n]> inv).
Proof.
  intros Hn Hs. unfold RecordCheck. rewrite Hn, Hs. simpl.
  destruct (_ <? _)%Z; reflexivity.
Qed.

(** One failed probe of an Unhealthy node. *)
Lemma RecordCheck_failure_unhealthy threshold now i inv n :
  inv !! i = Some n -> status n = Unhealthy ->
  RecordCheck threshold now i false inv =
  (false, <[i := checked Unhealthy (consecutiveFailures n + 1)%Z now n]> inv).
Proof. intros Hn Hs. unfold RecordCheck. rewrite Hn, Hs. reflexivity. Qed.

(** The result of [RecordCheck] is true exactly when the status of the
    node changed. *)
Lemma RecordCheck_reports_transition threshold now i ok inv :
  (RecordCheck threshold now i ok inv).1 = true <->
  status_of i (RecordCheck threshold now i ok inv).2 <> status_of i inv.
Proof.
  unfold RecordCheck.
  destruct (inv !! i) as [n |] eqn:Hn; simpl; [| split; congruence].
  rewrite (status_of_lookup i n inv Hn).
  destruct (status n) eqn:Hs, ok; simpl;
    try destruct (_ <? _)%Z; simpl;
    rewrite ?status_of_insert, ?(status_of_lookup i n inv Hn), ?Hs; simpl;
    split; congruence.
Qed.

Lemma RecordAll_failures threshold i rs :
  forall inv n,
    inv !! i = Some n -> counting threshold n ->
    Forall (fun r => nodeId r = i /\ success r = false) rs ->
    let c := consecutiveFailures n in
    exists n',
      (RecordAll threshold rs inv).2 !! i = Some n' /\
      status n' = (if (c + Z.of_nat (length rs) <? threshold)%Z
                   then Healthy else Unhealthy) /\
      consecutiveFailures n' = (c + Z.of_nat (length rs))%Z /\
      length (RecordAll threshold rs inv).1 = length rs /\
      forall k : nat, (k < length rs)%nat ->
        (RecordAll threshold rs inv).1 !! k =
        Some (bool_decide (c + Z.of_nat k + 1 = threshold)%Z).
Proof.
  induction rs as [| r rs IH]; intros inv n Hn Hc Hrs c.
  - exists n. simpl. rewrite Z.add_0_r. repeat split; auto; [| intros; lia].
    destruct Hc as [[-> Hlt] | [-> Hge]].
    + apply Z.ltb_lt in Hlt. fold c in Hlt. by rewrite Hlt.
    + apply Z.ltb_ge in Hge. fold c in Hge. by rewrite Hge.
  - inversion Hrs as [| ? ? [Hid Hfail] Hrs']; subst.
    simpl. unfold RecordResult. rewrite Hfail.
    set (n1 := checked (if (c + 1 <? threshold)%Z then Healthy else Unhealthy)
                       (c + 1)%Z (observedAt r) n).
    assert (Hstep : exists flag,
               RecordCheck threshold (observedAt r) (nodeId r) false inv
               = (flag, <[nodeId r := n1]> inv) /\
               flag = bool_decide (c + 1 = threshold)%Z /\
               counting threshold n1).
    { destruct Hc as [[Hs Hlt] | [Hs Hge]].
      - rewrite (RecordCheck_failure_healthy _ _ _ _ _ Hn Hs). fold c.
        eexists. split; [reflexivity |]. subst n1. fold c in Hlt.
        destruct (c + 1 <? threshold)%Z eqn:Hb; simpl.
        + apply Z.ltb_lt in Hb. split; [| left; simpl; auto].
          symmetry. apply bool_decide_eq_false. lia.
        + apply Z.ltb_ge in Hb. split; [| right; simpl; auto].
          symmetry. apply bool_decide_eq_true. lia.
      - rewrite (RecordCheck_failure_unhealthy _ _ _ _ _ Hn Hs). fold c.
        eexists. split; [| split].
        + subst n1. fold c in Hge.
          assert (Hb : (c + 1 <? threshold)%Z = false) by (apply Z.ltb_ge; lia).
          rewrite Hb. reflexivity.
        + symmetry. apply bool_decide_eq_false. fold c in Hge. lia.
        + right. subst n1. fold c in Hge.
          assert (Hb : (c + 1 <? threshold)%Z = false) by (apply Z.ltb_ge; lia).
          rewrite Hb. simpl. split; [reflexivity | lia]. }
    destruct Hstep as (flag & -> & Hflag & Hc1).
    destruct (IH (<[nodeId r := n1]> inv) n1 (lookup_insert_eq _ _ _) Hc1 Hrs')
      as (n' & Hn' & Hst & Hcount & Hlen & Hflags).
    destruct (RecordAll threshold rs (<[nodeId r := n1]> inv))
      as [flags inv''] eqn:HR.
    simpl in *. exists n'.
    replace (c + Z.of_nat (S (length rs)))%Z
      with (c + 1 + Z.of_nat (length rs))%Z by lia.
    repeat split; auto.
    intros [| k] Hk; simpl.
    + rewrite Hflag. f_equal. apply bool_decide_ext. lia.
    + rewrite Hflags by lia. f_equal. apply bool_decide_ext. lia.
Qed.

(** C1: with a threshold of at least 1, consecutive failed probes of a
    Healthy node whose failure count is below the threshold leave it
    Healthy as long as the count stays below the threshold and make it
    Unhealthy from the probe on that brings the count to the threshold;
    that probe, and no other, is reported as a transition.  One
    successful probe of an Unhealthy node makes it Healthy and is
    reported as a transition.  In every case the result of
    [RecordCheck] tells whether the status changed. *)
Theorem RecordCheck_health_transitions (threshold : Z) (i : string) :
  (1 <= threshold)%Z ->
  (forall inv n rs,
     inv !! i = Some n -> status n = Healthy ->
     (0 <= consecutiveFailures n < threshold)%Z ->
     Forall (fun r => nodeId r = i /\ success r = false) rs ->
     let c := consecutiveFailures n in
     let flags := (RecordAll threshold rs inv).1 in
     status_of i (RecordAll threshold rs inv).2 =
       Some (if (c + Z.of_nat (length rs) <? threshold)%Z
             then Healthy else Unhealthy) /\
     length flags = length rs /\
     (forall k : nat, (k < length rs)%nat ->
        flags !! k = Some (bool_decide (c + Z.of_nat k + 1 = threshold)%Z)) /\
     (forall j k : nat,
        flags !! j = Some true -> flags !! k = Some true -> j = k) /\
     ((threshold <= c + Z.of_nat (length rs))%Z ->
        flags !! Z.to_nat (threshold - c - 1) = Some true)) /\
  (forall inv n now,
     inv !! i = Some n -> status n = Unhealthy ->
     (RecordCheck threshold now i true inv).1 = true /\
     status_of i (RecordCheck threshold now i true inv).2 = Some Healthy) /\
  (forall now ok inv,
     (RecordCheck threshold now i ok inv).1 = true <->
     status_of i (RecordCheck threshold now i ok inv).2 <> status_of i inv).
Proof.
  intros Hth. split; [| split].
  - intros inv n rs Hn Hs Hc Hrs c flags.
    destruct (RecordAll_failures threshold i rs inv n Hn
                (or_introl (conj Hs (proj2 Hc))) Hrs)
      as (n' & Hn' & Hst & _ & Hlen & Hflags).
    fold c in Hst, Hflags. fold flags in Hlen, Hflags.
    assert (Hat : forall k : nat, flags !! k = Some true ->
              (c + Z.of_nat k + 1 = threshold)%Z).
    { intros k Hk.
      assert (Hlt : (k < length rs)%nat)
        by (rewrite <- Hlen; eapply lookup_lt_Some; eauto).
      rewrite (Hflags k Hlt) in Hk. injection Hk as Hk.
      by apply bool_decide_eq_true in Hk. }
    repeat split; auto.
    + rewrite (status_of_lookup _ _ _ Hn'), Hst. reflexivity.
    + intros j k Hj Hk. apply Hat in Hj, Hk. lia.
    + intros Hge. rewrite Hflags by lia. f_equal.
      apply bool_decide_eq_true. lia.
  - intros inv n now Hn Hs. unfold RecordCheck. rewrite Hn, Hs. simpl.
    split; [reflexivity | apply status_of_insert].
  - intros now ok inv. apply RecordCheck_reports_transition.
Qed.

End StoreFacts.


Section StoreInvariant.
Import Engine.

(** With a threshold of at least 1, [RecordCheck] keeps every Healthy
    node below the threshold, so the nodes the state machine is stated
    for are the Healthy nodes a store can hold. *)
Lemma RecordCheck_keeps_healthy_below threshold now i ok (inv : Inventory) :
  (1 <= threshold)%Z ->
  healthy_below threshold inv ->
  map_Forall (fun _ n => (0 <= consecutiveFailures n)%Z) inv ->
  healthy_below threshold (RecordCheck threshold now i ok inv).2.
Proof.
  intros Hth Hinv Hpos. unfold RecordCheck.
  destruct (inv !! i) as [n |] eqn:Hn; [| exact Hinv].
  pose proof (Hpos i n Hn) as Hn0. simpl in Hn0.
  destruct (status n) eqn:Hs, ok; simpl; try exact Hinv;
    try (destruct (_ <? _)%Z eqn:Hb; simpl);
    apply map_Forall_insert_2; try exact Hinv; simpl;
    try (intros _; lia); discriminate.
Qed.

Lemma Upsert_newNode_keeps_healthy_below threshold i host v4 v6
    (inv : Inventory) :
  healthy_below threshold inv ->
  healthy_below threshold (Upsert (newNode i host v4 v6) inv).
Proof.
  intros Hinv. unfold Upsert. simpl.
  destruct (inv !! i) as [old |] eqn:Hold;
    apply map_Forall_insert_2; try exact Hinv; simpl; [| discriminate].
  exact (Hinv i old Hold).
Qed.

End StoreInvariant.

Lemma RecordCheck_health_transitions_witness :
  Engine.status_of "A"
    (Engine.RecordAll 3 [Engine.failure 1; Engine.failure 2; Engine.failure 3;
                         Engine.failure 4]
       {["A" := Engine.nodeA Engine.Healthy 0]}).2
  = Some Engine.Unhealthy /\
  (Engine.RecordAll 3 [Engine.failure 1; Engine.failure 2; Engine.failure 3;
                       Engine.failure 4]
     {["A" := Engine.nodeA Engine.Healthy 0]}).1 !! 2%nat = Some true.
Proof.
  assert (H3 : (1 <= 3)%Z) by lia.
  destruct (RecordCheck_health_transitions 3 "A" H3) as [H _].
  destruct (H {["A" := Engine.nodeA Engine.Healthy 0]}
              (Engine.nodeA Engine.Healthy 0)
              [Engine.failure 1; Engine.failure 2; Engine.failure 3;
               Engine.failure 4])
    as (Hst & _ & _ & _ & Hat).
  - vm_compute. reflexivity.
  - reflexivity.
  - simpl. lia.
  - repeat constructor.
  - split; [exact Hst |]. apply Hat. simpl. lia.
Defined.

(** Scenario A of the design document. *)
Example three_failures :
  Engine.RecordAll 3 [Engine.failure 1; Engine.failure 2; Engine.failure 3;
                      Engine.failure 4]
    {["A" := Engine.nodeA Engine.Healthy 0]}
  = ([false; false; true; false],
     {["A" := Engine.checked Engine.Unhealthy 4 4
                (Engine.nodeA Engine.Healthy 0)]}).
Proof. vm_compute. reflexivity. Qed.

(** ** Reconciler *)
Section ReconcilerFacts.
Import Engine.

Variable address : ResolverNode -> string.

Implicit Types (inv : Inventory) (n : ResolverNode) (i j : string)
  (w : World) (cur : gset string).

Local Abbreviation desired := (Engine.desired address).
Local Abbreviation confirmed := (Engine.confirmed address).
Local Abbreviation Reconcile := (Engine.Reconcile address).

Lemma World_eta w : {| inventory := inventory w; live := live w |} = w.
Proof. by destruct w. Qed.

Lemma symmetric_difference_empty (a b : gset string) :
  (a ∖ b) ∪ (b ∖ a) = ∅ <-> a = b.
Proof.
  split.
  - intros H. apply set_eq. intros x.
    assert (Hx : x ∉ (a ∖ b) ∪ (b ∖ a)) by (rewrite H; apply not_elem_of_empty).
    rewrite elem_of_union, !elem_of_difference in Hx.
    destruct (decide (x ∈ a)), (decide (x ∈ b)); tauto.
  - intros ->. apply set_eq. intros x.
    rewrite elem_of_union, !elem_of_difference. split; [tauto |].
    intros Hx. by apply not_elem_of_empty in Hx.
Qed.

Lemma elem_of_desired x inv :
  x ∈ desired inv <->
  exists i n, inv !! i = Some n /\ status n = Healthy /\ address n = x.
Proof.
  unfold Engine.desired. rewrite elem_of_map_img. split.
  - intros (i & Hi). apply lookup_fmap_Some in Hi as (n & Hx & Hn).
    apply map_lookup_filter_Some in Hn as [Hn Hs]. eauto.
  - intros (i & n & Hn & Hs & Hx). exists i.
    apply lookup_fmap_Some. exists n. split; [exact Hx |].
    apply map_lookup_filter_Some. auto.
Qed.

Lemma elem_of_confirmed i cur inv :
  i ∈ confirmed cur inv <->
  exists n, inv !! i = Some n /\ status n = Removed /\ address n ∉ cur.
Proof.
  unfold Engine.confirmed. rewrite list_elem_of_fmap. split.
  - intros ([j n] & -> & Hin). apply elem_of_map_to_list in Hin.
    apply map_lookup_filter_Some in Hin as [Hn [Hs Ha]]. eauto.
  - intros (n & Hn & Hs & Ha). exists (i, n). split; [reflexivity |].
    apply elem_of_map_to_list, map_lookup_filter_Some. auto.
Qed.

Lemma NoDup_confirmed cur inv : NoDup (confirmed cur inv).
Proof. unfold Engine.confirmed. apply NoDup_fst_map_to_list. Qed.

Lemma Purge_lookup_Some i j n inv :
  (Purge i inv).2 !! j = Some n <->
  inv !! j = Some n /\ ~ (j = i /\ status n = Removed).
Proof.
  assert (Hkeep : forall m, inv !! i = Some m -> status m <> Removed ->
            (inv !! j = Some n <->
             inv !! j = Some n /\ ~ (j = i /\ status n = Removed))).
  { intros m Hm Hs. split; [| tauto]. intros H. split; [exact H |].
    intros [-> Hr]. congruence. }
  unfold Purge. destruct (inv !! i) as [m |] eqn:Hm; simpl.
  - destruct (status m) eqn:Hs; simpl;
      try (apply (Hkeep m eq_refl); congruence).
    rewrite lookup_delete_Some. split.
    + intros [Hne H]. split; [exact H |]. intros [-> _]. congruence.
    + intros [H Hnot]. split; [| exact H]. intros <-. apply Hnot.
      split; [reflexivity | congruence].
  - split; [| tauto]. intros H. split; [exact H |].
    intros [-> _]. congruence.
Qed.

Lemma purgeAll_lookup_Some ids j n inv :
  purgeAll ids inv !! j = Some n <->
  inv !! j = Some n /\ ~ (j ∈ ids /\ status n = Removed).
Proof.
  induction ids as [| i ids IH]; simpl.
  - split; [| tauto]. intros H. split; [exact H |].
    intros [Hj _]. inversion Hj.
  - rewrite Purge_lookup_Some, IH. rewrite elem_of_cons. tauto.
Qed.

(** The records the reconciler keeps after a run that met [cur] as the
    live set. *)
Lemma purge_confirmed_lookup_Some cur j n inv :
  purgeAll (confirmed cur inv) inv !! j = Some n <->
  inv !! j = Some n /\ ~ (status n = Removed /\ address n ∉ cur).
Proof.
  rewrite purgeAll_lookup_Some, elem_of_confirmed. split.
  - intros [Hn Hnot]. split; [exact Hn |]. intros [Hs Ha]. apply Hnot.
    split; [eauto | exact Hs].
  - intros [Hn Hnot]. split; [exact Hn |].
    intros [(m & Hm & Hs & Ha) _]. apply Hnot.
    rewrite Hn in Hm. injection Hm as <-. auto.
Qed.

Lemma purgeAll_settled ids inv :
  map_Forall (fun _ n => status n <> Removed) inv -> purgeAll ids inv = inv.
Proof.
  intros Hset. apply map_eq. intros j. apply option_eq. intros n.
  rewrite purgeAll_lookup_Some. split; [tauto |].
  intros Hn. split; [exact Hn |]. intros [_ Hs]. exact (Hset j n Hn Hs).
Qed.

(** Purging never changes the desired set: only Healthy nodes count. *)
Lemma desired_purgeAll ids inv : desired (purgeAll ids inv) = desired inv.
Proof.
  apply set_eq. intros x. rewrite !elem_of_desired. split.
  - intros (i & n & Hn & Hs & Hx). apply purgeAll_lookup_Some in Hn as [Hn _].
    eauto.
  - intros (i & n & Hn & Hs & Hx). exists i, n. split; [| auto].
    apply purgeAll_lookup_Some. split; [exact Hn | intros [_ ?]; congruence].
Qed.

(** What a run leaves in the inventory: a record of the result was there
    before, and a record that is not Removed stays. *)
Lemma Reconcile_inventory o w :
  let w' := (Reconcile o w).2 in
  (forall j n, inventory w' !! j = Some n -> inventory w !! j = Some n) /\
  (forall j n, inventory w !! j = Some n -> status n <> Removed ->
               inventory w' !! j = Some n).
Proof.
  unfold Engine.Reconcile.
  destruct (readError o); simpl; [tauto |].
  destruct (decide _) as [Hd | Hd]; simpl.
  - split; intros j n; rewrite purge_confirmed_lookup_Some; tauto.
  - destruct (writeReply o); simpl; [| tauto].
    split; intros j n; rewrite purge_confirmed_lookup_Some; tauto.
Qed.

(** After a successful run the live set is the desired set of the
    inventory the run leaves, and nothing is left to confirm. *)
Lemma Reconcile_ok o w :
  outcome (Reconcile o w).1 = Ok tt ->
  let w' := (Reconcile o w).2 in
  live w' = desired (inventory w') /\
  inventory w' = purgeAll (confirmed (live w') (inventory w)) (inventory w).
Proof.
  unfold Engine.Reconcile, Snapshot.
  destruct (readError o); simpl; [discriminate |].
  destruct (decide _) as [Hd | Hd]; simpl.
  - intros _. apply (proj1 (symmetric_difference_empty _ _)) in Hd.
    rewrite desired_purgeAll. auto.
  - destruct (writeReply o); simpl; [| discriminate].
    intros _. rewrite desired_purgeAll. auto.
Qed.

Lemma confirmed_after_purge cur inv :
  confirmed cur (purgeAll (confirmed cur inv) inv) = [].
Proof.
  apply elem_of_nil_inv. intros i Hi.
  apply elem_of_confirmed in Hi as (n & Hn & Hs & Ha).
  apply purge_confirmed_lookup_Some in Hn as [_ Hnot]. tauto.
Qed.

(** A run on the world a successful run left: the live set already is
    the desired set and every confirmed removal is purged. *)
Lemma Reconcile_again (o1 o2 : AdapterRun) (w : World) :
  outcome (Reconcile o1 w).1 = Ok tt ->
  let w1 := (Reconcile o1 w).2 in
  writes (Reconcile o2 w1).1 = [] /\
  (readError o2 = None ->
     outcome (Reconcile o2 w1).1 = Ok tt /\
     purged (Reconcile o2 w1).1 = [] /\
     (Reconcile o2 w1).2 = w1).
Proof.
  intros Hok w1.
  destruct (Reconcile_ok o1 w Hok) as [Hlive Hinv]. fold w1 in Hlive, Hinv.
  assert (Hd : (desired (inventory w1) ∖ live w1)
               ∪ (live w1 ∖ desired (inventory w1)) = ∅)
    by (apply symmetric_difference_empty; congruence).
  assert (Hc : confirmed (live w1) (inventory w1) = []).
  { rewrite Hinv. apply confirmed_after_purge. }
  unfold Engine.Reconcile, Snapshot.
  destruct (readError o2); simpl; [split; [reflexivity | discriminate] |].
  destruct (decide _) as [_ | Hne]; [| contradiction]. simpl.
  split; [reflexivity |]. intros _.
  rewrite Hc. simpl. repeat split. apply World_eta.
Qed.

(** C2: after a successful run, a second run on the world the first one
    left (the inventory untouched in between) issues no write through
    the adapter, whatever the adapter would answer; when its read
    succeeds it also leaves the world as it is. *)
Theorem Reconcile_idempotent (o1 o2 : AdapterRun) (w : World) :
  outcome (Reconcile o1 w).1 = Ok tt ->
  let w1 := (Reconcile o1 w).2 in
  writes (Reconcile o2 w1).1 = [] /\
  length (writes (Reconcile o2 w1).1) = 0%nat /\
  (readError o2 = None -> (Reconcile o2 w1).2 = w1).
Proof.
  intros Hok w1.
  destruct (Reconcile_ok o1 w Hok) as [Hlive Hinv]. fold w1 in Hlive, Hinv.
  assert (Hsame : (desired (inventory w1) ∖ live w1)
                  ∪ (live w1 ∖ desired (inventory w1)) = ∅).
  { apply symmetric_difference_empty. by rewrite Hlive. }
  assert (Hnone : confirmed (live w1) (inventory w1) = []).
  { rewrite Hinv. apply confirmed_after_purge. }
  unfold Engine.Reconcile, Snapshot.
  destruct (readError o2) as [e |]; simpl.
  - split; [reflexivity | split; [reflexivity | discriminate]].
  - destruct (decide _) as [_ | Hdiff]; [simpl | contradiction].
    split; [reflexivity | split; [reflexivity |]].
    intros _. rewrite Hnone. simpl. apply World_eta.
Qed.

End ReconcilerFacts.

Lemma Reconcile_idempotent_witness :
  Engine.writes (Engine.Reconcile Engine.ipv4 Engine.adapter_ok
                   Engine.world_diverged).1 = [{["100.64.0.1"]}] /\
  Engine.writes
    (Engine.Reconcile Engine.ipv4 Engine.adapter_ok
       (Engine.Reconcile Engine.ipv4 Engine.adapter_ok Engine.world_diverged).2).1
  = [].
Proof.
  split; [vm_compute; reflexivity |].
  apply (Reconcile_idempotent Engine.ipv4 Engine.adapter_ok Engine.adapter_ok
           Engine.world_diverged).
  vm_compute. reflexivity.
Defined.

(** ** RPC server *)
Section RpcFacts.
Import Engine.

Variable address : ResolverNode -> string.

Implicit Types (inv : Inventory) (n : ResolverNode) (i j : string)
  (w : World) (c : Call) (o : AdapterRun).

Local Abbreviation desired := (Engine.desired address).
Local Abbreviation confirmed := (Engine.confirmed address).
Local Abbreviation Reconcile := (Engine.Reconcile address).
Local Abbreviation handle := (Engine.handle address).
Local Abbreviation serve := (Engine.serve address).
Local Abbreviation trace := (Engine.trace address).

Lemma mutate_ok c inv : (mutate c inv).1 = Ok tt.
Proof.
  destruct c as [i host v4 v6 | i]; simpl; [reflexivity |].
  unfold MarkRemoved. destruct (inv !! i) as [n |]; [| reflexivity].
  destruct (status n); reflexivity.
Qed.

Lemma handle_world c o w :
  world (handle c o w) =
  (Reconcile o {| inventory := (mutate c (inventory w)).2; live := live w |}).2.
Proof.
  unfold Engine.handle. destruct (mutate c (inventory w)) as [stored inv'].
  simpl. destruct (Engine.Reconcile _ _ _). reflexivity.
Qed.

Lemma handle_report c o w :
  report (handle c o w) =
  (Reconcile o {| inventory := (mutate c (inventory w)).2; live := live w |}).1.
Proof.
  unfold Engine.handle. destruct (mutate c (inventory w)) as [stored inv'].
  simpl. destruct (Engine.Reconcile _ _ _). reflexivity.
Qed.

Lemma handle_reply c o w : reply (handle c o w) = outcome (report (handle c o w)).
Proof.
  pose proof (mutate_ok c (inventory w)) as Hm.
  unfold Engine.handle. destruct (mutate c (inventory w)) as [stored inv'].
  simpl in *. subst stored. destruct (Engine.Reconcile _ _ _). reflexivity.
Qed.

Lemma Reconcile_answers o w :
  readError o = None -> writeReply o = WriteOk ->
  outcome (Reconcile o w).1 = Ok tt.
Proof.
  intros Hr Hw. unfold Engine.Reconcile. rewrite Hr, Hw.
  destruct (decide _); reflexivity.
Qed.

Lemma Reconcile_ok_purged o w :
  outcome (Reconcile o w).1 = Ok tt ->
  purged (Reconcile o w).1 = confirmed (live (Reconcile o w).2) (inventory w).
Proof.
  unfold Engine.Reconcile.
  destruct (readError o); simpl; [discriminate |].
  destruct (decide _) as [Hd | Hd]; simpl; [reflexivity |].
  destruct (writeReply o); simpl; [reflexivity | discriminate].
Qed.

(** *** Store operations behind the calls *)

Lemma dom_Upsert node inv : dom (Upsert node inv) = {[id node]} ∪ dom inv.
Proof. unfold Upsert. destruct (inv !! id node); apply dom_insert_L. Qed.

Lemma Upsert_existing node old inv :
  inv !! id node = Some old ->
  Upsert node inv = <[id node := set_addressing node old]> inv.
Proof. unfold Upsert. by intros ->. Qed.

Lemma Upsert_keeps_settled node inv :
  status node <> Removed ->
  map_Forall (fun _ n => status n <> Removed) inv ->
  map_Forall (fun _ n => status n <> Removed) (Upsert node inv).
Proof.
  intros Hnode Hinv. unfold Upsert.
  destruct (inv !! id node) as [old |] eqn:Hold;
    apply map_Forall_insert_2; auto.
  simpl. exact (Hinv _ _ Hold).
Qed.

Lemma MarkRemoved_absent i inv :
  inv !! i = None -> MarkRemoved i inv = (Ok tt, inv).
Proof. unfold MarkRemoved. by intros ->. Qed.

Lemma MarkRemoved_removed i n inv :
  inv !! i = Some n -> status n = Removed -> MarkRemoved i inv = (Ok tt, inv).
Proof. unfold MarkRemoved. by intros -> ->. Qed.

(** After [MarkRemoved] a record that was there is there as Removed, and
    the other records are as before. *)
Lemma MarkRemoved_lookup i n inv :
  inv !! i = Some n ->
  (MarkRemoved i inv).2 !! i = Some (set_status Removed n) /\
  forall j, j <> i -> (MarkRemoved i inv).2 !! j = inv !! j.
Proof.
  intros Hn. unfold MarkRemoved. rewrite Hn.
  destruct (status n) eqn:Hs; simpl;
    rewrite ?lookup_insert_eq; try (split; [reflexivity |];
      intros j Hj; by rewrite lookup_insert_ne).
  split; [| reflexivity]. rewrite Hn. f_equal.
  destruct n; simpl in *; by subst.
Qed.

Lemma MarkRemoved_twice i inv :
  MarkRemoved i (MarkRemoved i inv).2 = (Ok tt, (MarkRemoved i inv).2).
Proof.
  destruct (inv !! i) as [n |] eqn:Hn.
  - destruct (MarkRemoved_lookup i n inv Hn) as [Hi _].
    by apply (MarkRemoved_removed i _ _ Hi).
  - rewrite (MarkRemoved_absent i inv Hn). simpl.
    by apply MarkRemoved_absent.
Qed.

(** *** One call, when no removal is left unconfirmed *)

Lemma handle_membership c o w :
  settled w -> settled (world (handle c o w)) ->
  members (world (handle c o w)) = applyCall c (members w).
Proof.
  unfold settled, members. rewrite handle_world.
  set (inv1 := (mutate c (inventory w)).2).
  destruct (Reconcile_inventory address o
              {| inventory := inv1; live := live w |}) as [Hin Hout].
  simpl in Hin, Hout.
  set (w' := (Reconcile o {| inventory := inv1; live := live w |}).2) in *.
  intros Hw Hw'.
  destruct c as [i host v4 v6 | i]; simpl in *.
  - assert (H1 : map_Forall (fun _ n => status n <> Removed) inv1).
    { apply Upsert_keeps_settled; [discriminate | exact Hw]. }
    assert (Heq : inventory w' = inv1).
    { apply map_eq. intros j. apply option_eq. intros n. split; [apply Hin |].
      intros Hn. apply Hout; [exact Hn | exact (H1 j n Hn)]. }
    rewrite Heq. apply dom_Upsert.
  - apply set_eq. intros j.
    rewrite elem_of_difference, !elem_of_dom, elem_of_singleton.
    destruct (inventory w !! i) as [n |] eqn:Hn.
    + destruct (MarkRemoved_lookup i n (inventory w) Hn) as [Hi Hother].
      fold inv1 in Hi, Hother. split.
      * intros [m Hm]. pose proof (Hin j m Hm) as Hm1.
        assert (Hji : j <> i).
        { intros ->. rewrite Hi in Hm1. injection Hm1 as <-.
          apply (Hw' i _ Hm). reflexivity. }
        split; [| exact Hji]. exists m. by rewrite <- Hother.
      * intros [[m Hm] Hji]. exists m. apply Hout.
        -- by rewrite Hother.
        -- exact (Hw j m Hm).
    + assert (Heq : inv1 = inventory w).
      { subst inv1. by rewrite (MarkRemoved_absent i _ Hn). }
      rewrite Heq in Hin, Hout. split.
      * intros [m Hm]. pose proof (Hin j m Hm) as Hm1.
        split; [eauto |]. intros ->. congruence.
      * intros [[m Hm] _]. exists m. apply Hout; [exact Hm |].
        exact (Hw j m Hm).
Qed.

Lemma serve_cons c o cs w :
  (serve ((c, o) :: cs) w).2 = (serve cs (world (handle c o w))).2.
Proof. simpl. destruct (Engine.serve _ cs _). reflexivity. Qed.

Lemma serve_membership cs :
  forall w, Forall settled (trace cs w) ->
            members (serve cs w).2 = applyCalls cs.*1 (members w).
Proof.
  induction cs as [| [c o] cs IH]; intros w Htr; [reflexivity |].
  simpl in Htr. apply Forall_cons in Htr as [Hw Hrest].
  rewrite serve_cons. simpl.
  assert (Hw' : settled (world (handle c o w))).
  { destruct cs as [| [c' o'] cs']; simpl in Hrest;
      by apply Forall_cons in Hrest as [? _]. }
  rewrite (IH _ Hrest). unfold applyCalls. simpl.
  by rewrite (handle_membership c o w Hw Hw').
Qed.


(** C6: [MarkRemoved] always succeeds and changes nothing when the id is
    unknown or already Removed, so marking twice is marking once.  Two
    [RemoveNode] calls in a row for a node of the inventory, both served
    by the adapter, both reply with success; when no Healthy node uses
    the address of the removed record, the reconciliation of the first
    call purges the record, the second purges nothing, and the record is
    gone. *)
Theorem MarkRemoved_idempotent (inv : Inventory) (i : string) :
  (inv !! i = None -> MarkRemoved i inv = (Ok tt, inv)) /\
  (forall n, inv !! i = Some n -> status n = Removed ->
             MarkRemoved i inv = (Ok tt, inv)) /\
  (MarkRemoved i inv).1 = Ok tt /\
  MarkRemoved i (MarkRemoved i inv).2 = (Ok tt, (MarkRemoved i inv).2) /\
  (forall cur o1 o2 n,
     inv !! i = Some n ->
     readError o1 = None -> writeReply o1 = WriteOk ->
     readError o2 = None -> writeReply o2 = WriteOk ->
     address (set_status Removed n) ∉ desired (MarkRemoved i inv).2 ->
     let s1 := handle (RemoveNode i) o1 {| inventory := inv; live := cur |} in
     let s2 := handle (RemoveNode i) o2 (world s1) in
     reply s1 = Ok tt /\ reply s2 = Ok tt /\
     count_occ String.string_dec
       (purged (report s1) ++ purged (report s2)) i = 1%nat /\
     inventory (world s1) !! i = None /\
     world s2 = world s1).
Proof.
  split; [apply MarkRemoved_absent |].
  split; [intros n; apply MarkRemoved_removed |].
  split; [exact (mutate_ok (RemoveNode i) inv) |].
  split; [apply MarkRemoved_twice |].
  intros cur o1 o2 n Hn Hr1 Hw1 Hr2 Hw2 Hex s1 s2.
  destruct (MarkRemoved_lookup i n inv Hn) as [Hi _].
  set (w0 := {| inventory := (MarkRemoved i inv).2; live := cur |}).
  assert (Hok1 : outcome (Reconcile o1 w0).1 = Ok tt)
    by (by apply Reconcile_answers).
  destruct (Reconcile_ok address o1 w0 Hok1) as [Hlive Hinv1].
  pose proof (Reconcile_ok_purged o1 w0 Hok1) as Hp1.
  assert (Hs1w : world s1 = (Reconcile o1 w0).2)
    by (subst s1; by rewrite handle_world).
  assert (Hs1r : report s1 = (Reconcile o1 w0).1)
    by (subst s1; by rewrite handle_report).
  set (w1 := (Reconcile o1 w0).2) in *.
  assert (Hdes : live w1 = desired (MarkRemoved i inv).2).
  { rewrite Hlive, Hinv1. apply desired_purgeAll. }
  assert (Hin1 : i ∈ purged (report s1)).
  { rewrite Hs1r, Hp1. apply elem_of_confirmed. eexists. split; [exact Hi |].
    split; [reflexivity |]. fold w1. rewrite Hdes. exact Hex. }
  assert (Hgone : inventory w1 !! i = None).
  { apply eq_None_not_Some. intros [m Hm]. rewrite Hinv1 in Hm.
    apply purge_confirmed_lookup_Some in Hm as [Hm Hnot]. simpl in Hm.
    rewrite Hi in Hm. injection Hm as <-. apply Hnot.
    split; [reflexivity |]. rewrite Hdes. exact Hex. }
  assert (Hmark2 : (mutate (RemoveNode i) (inventory w1)).2 = inventory w1)
    by (simpl; by rewrite (MarkRemoved_absent i _ Hgone)).
  destruct (Reconcile_again address o1 o2 w0 Hok1) as [_ Hrun2].
  destruct (Hrun2 Hr2) as (Hok2 & Hp2 & Hsame). fold w1 in Hok2, Hp2, Hsame.
  assert (Hs2w : world s2 = w1).
  { subst s2. rewrite handle_world, Hs1w, Hmark2, World_eta. exact Hsame. }
  assert (Hs2r : report s2 = (Reconcile o2 w1).1).
  { subst s2. by rewrite handle_report, Hs1w, Hmark2, World_eta. }
  repeat split.
  - pose proof (handle_reply (RemoveNode i) o1
                  {| inventory := inv; live := cur |}) as Hrep.
    fold s1 in Hrep. by rewrite Hrep, Hs1r.
  - pose proof (handle_reply (RemoveNode i) o2 (world s1)) as Hrep.
    fold s2 in Hrep. by rewrite Hrep, Hs2r.
  - rewrite Hs2r, Hp2, app_nil_r.
    apply NoDup_count_occ'; [| by apply list_elem_of_In].
    apply NoDup_ListNoDup. rewrite Hs1r, Hp1. apply NoDup_confirmed.
  - by rewrite Hs1w.
  - by rewrite Hs2w, Hs1w.
Qed.

End RpcFacts.



Lemma MarkRemoved_idempotent_witness :
  let s1 := Engine.handle Engine.ipv4 (Engine.RemoveNode "A") Engine.adapter_ok
              (Engine.world_A Engine.Healthy) in
  let s2 := Engine.handle Engine.ipv4 (Engine.RemoveNode "A") Engine.adapter_ok
              (Engine.world s1) in
  Engine.reply s1 = Ok tt /\ Engine.reply s2 = Ok tt /\
  count_occ String.string_dec
    (Engine.purged (Engine.report s1) ++ Engine.purged (Engine.report s2)) "A"
  = 1%nat /\
  Engine.inventory (Engine.world s1) !! "A" = None /\
  Engine.world s2 = Engine.world s1.
Proof.
  apply (MarkRemoved_idempotent Engine.ipv4
           {["A" := Engine.nodeA Engine.Healthy 0]} "A")
    with (n := Engine.nodeA Engine.Healthy 0);
    first [reflexivity | decide_by_evaluation].
Defined.

(** ** Configuration loading: what else the code shows *)
Section ConfigMore.
Import Config.

Variable ParseDuration : string -> option Go.Duration.
Variable Atoi : string -> option Z.
Variable Join : list string -> string.

Local Abbreviation Load := (Config.Load ParseDuration Atoi Join).

(** [Load] sees the machine only through the variables it names, the
    presence of [/.dockerenv] and the XDG data directory. *)
Lemma Load_ext (os os' : OS) :
  (forall key, key ∈ read_vars -> Getenv os key = Getenv os' key) ->
  dockerenv os = dockerenv os' ->
  DataHome os = DataHome os' ->
  Load os = Load os'.
Proof.
  intros Henv Hd Hx.
  assert (Hk : Forall (fun key => Getenv os key = Getenv os' key) read_vars)
    by (apply Forall_forall; exact Henv).
  unfold read_vars in Hk.
  repeat (apply Forall_cons in Hk as [? Hk]).
  unfold Config.Load, determineStateDir, isRunningInContainer,
    getEnvOrDefault, getDurationOrDefault, getIntOrDefault.
  repeat match goal with
         | H : Getenv os _ = Getenv os' _ |- _ => rewrite ?H; clear H
         end.
  rewrite Hd, Hx. reflexivity.
Qed.

Lemma Getenv_setenv_ne key key' value (os : OS) :
  key <> key' -> Getenv (setenv key value os) key' = Getenv os key'.
Proof. intros Hne. unfold Getenv, setenv. simpl. by rewrite lookup_insert_ne. Qed.

Lemma Getenv_setenv_eq key value (os : OS) :
  Getenv (setenv key value os) key = value.
Proof. unfold Getenv, setenv. simpl. by rewrite lookup_insert_eq. Qed.

Lemma Getenv_unsetenv key key' (os : OS) :
  Getenv (unsetenv key os) key' = if decide (key = key') then "" else Getenv os key'.
Proof.
  unfold Getenv, unsetenv. simpl. case_decide as Hk.
  - subst. by rewrite lookup_delete_eq.
  - by rewrite lookup_delete_ne.
Qed.

(** X1: the only error [Load] returns is "TS_AUTHKEY is required", and it
    returns it only when TS_AUTHKEY is unset or empty; the error for the
    state directory is never produced, as [determineStateDir] never
    fails. *)
Theorem Load_only_error (os : OS) (e : string) :
  Load os = Err e ->
  e = "TS_AUTHKEY is required" /\ Getenv os "TS_AUTHKEY" = "" /\
  forall development, is_ok (determineStateDir Join os development) = true.
Proof.
  intros HL.
  destruct (Load_cases ParseDuration Atoi Join os) as [[Hkey HE] | [_ [dir HO]]];
    [| congruence].
  rewrite HE in HL. injection HL as <-.
  split; [reflexivity | split; [exact Hkey |]].
  intros development.
  by destruct (determineStateDir_total Join os development) as [dir ->].
Qed.

(** X2: the state directory of a loaded configuration is TS_STATE_DIR when
    that is set and non-empty; otherwise "./tsnet.tmp/" when DEVEL is
    "true"; otherwise "/data" when [/.dockerenv] exists or the variable
    [container] is non-empty; otherwise the XDG data directory joined with
    "skopos" and "tsnet".  Development mode takes precedence over the
    container check. *)
Theorem Load_state_dir_precedence (os : OS) (cfg : Config) :
  Load os = Ok cfg ->
  let dir := StateDir (Tailscale cfg) in
  (Getenv os "TS_STATE_DIR" <> "" -> dir = Getenv os "TS_STATE_DIR") /\
  (Getenv os "TS_STATE_DIR" = "" ->
     (Getenv os "DEVEL" = "true" -> dir = "./tsnet.tmp/") /\
     (Getenv os "DEVEL" <> "true" ->
        (dockerenv os = true \/ Getenv os "container" <> "" -> dir = "/data") /\
        (dockerenv os = false -> Getenv os "container" = "" ->
           dir = Join [DataHome os; "skopos"; "tsnet"]))).
Proof.
  intros HL dir. subst dir. revert HL. unfold Config.Load.
  destruct (determineStateDir Join os _) as [sd | e] eqn:Hsd;
    [| discriminate].
  destruct (nonempty (Getenv os "TS_AUTHKEY")); [| discriminate].
  intros [= <-]. simpl. unfold getEnvOrDefault. split.
  - intros Hset. apply nonempty_true in Hset. by rewrite Hset.
  - intros ->. simpl. revert Hsd. unfold determineStateDir, isRunningInContainer.
    split.
    + intros Hdev. rewrite Hdev in Hsd. simpl in Hsd. congruence.
    + intros Hdev. apply String.eqb_neq in Hdev. rewrite Hdev in Hsd. split.
      * intros [Hdocker | Hc].
        -- rewrite Hdocker in Hsd. congruence.
        -- apply nonempty_true in Hc. rewrite Hc in Hsd.
           destruct (dockerenv os); congruence.
      * intros Hdocker Hc. rewrite Hdocker, Hc in Hsd. simpl in Hsd. congruence.
Qed.

(** X3: a variable set to the empty string is read as if it were unset:
    [Load] gives the same result on both machines, whatever the variable. *)
Theorem Load_empty_is_unset (key : string) (os : OS) :
  Load (setenv key "" os) = Load (unsetenv key os).
Proof.
  apply Load_ext; [| reflexivity | reflexivity].
  intros key' _. rewrite Getenv_unsetenv. case_decide as Hk.
  - subst. apply Getenv_setenv_eq.
  - by apply Getenv_setenv_ne.
Qed.


(** X5: a configuration that [Load] returns has a non-empty AuthKey, equal
    to TS_AUTHKEY, and a non-empty Hostname, equal to TS_HOSTNAME when that
    is non-empty and to "skopos-dnsmon" otherwise. *)
Theorem Load_identity_nonempty (os : OS) (cfg : Config) :
  Load os = Ok cfg ->
  AuthKey (Tailscale cfg) = Getenv os "TS_AUTHKEY" /\
  AuthKey (Tailscale cfg) <> "" /\
  Hostname (Tailscale cfg) <> "" /\
  (Getenv os "TS_HOSTNAME" <> "" ->
     Hostname (Tailscale cfg) = Getenv os "TS_HOSTNAME") /\
  (Getenv os "TS_HOSTNAME" = "" -> Hostname (Tailscale cfg) = "skopos-dnsmon").
Proof.
  intros HL.
  destruct (Load_cases ParseDuration Atoi Join os) as [[_ HE] | [Hkey [dir HO]]];
    [congruence |].
  rewrite HO in HL. injection HL as <-. simpl. unfold getEnvOrDefault.
  split; [reflexivity | split; [exact Hkey |]].
  destruct (nonempty (Getenv os "TS_HOSTNAME")) eqn:Hh.
  - apply nonempty_true in Hh.
    split; [exact Hh | split; [reflexivity | intros; contradiction]].
  - apply nonempty_false in Hh.
    split; [discriminate | split; [intros; contradiction | reflexivity]].
Qed.

(** X6: a duration that [time.ParseDuration] accepts is used as it is,
    with no check of its sign: when TS_AUTHKEY is non-empty and
    HEALTH_CHECK_INTERVAL, HEALTH_CHECK_TIMEOUT or DNS_UPDATE_TIMEOUT
    parses to [d], [Load] succeeds with that field equal to [d], also when
    [d] is zero or negative. *)
Theorem Load_accepts_any_parsed_duration (os : OS) (d : Go.Duration) :
  Getenv os "TS_AUTHKEY" <> "" ->
  exists cfg,
    Load os = Ok cfg /\
    (Getenv os "HEALTH_CHECK_INTERVAL" <> "" ->
       ParseDuration (Getenv os "HEALTH_CHECK_INTERVAL") = Some d ->
       Interval (HealthCheck cfg) = d) /\
    (Getenv os "HEALTH_CHECK_TIMEOUT" <> "" ->
       ParseDuration (Getenv os "HEALTH_CHECK_TIMEOUT") = Some d ->
       Timeout (HealthCheck cfg) = d) /\
    (Getenv os "DNS_UPDATE_TIMEOUT" <> "" ->
       ParseDuration (Getenv os "DNS_UPDATE_TIMEOUT") = Some d ->
       UpdateTimeout (DNS cfg) = d).
Proof.
  intros Hkey.
  destruct (Load_cases ParseDuration Atoi Join os) as [[HE _] | [_ [dir HO]]];
    [contradiction |].
  eexists. split; [exact HO |]. simpl. unfold getDurationOrDefault.
  repeat split; intros Hset Hparse; apply nonempty_true in Hset;
    by rewrite Hset, Hparse.
Qed.

End ConfigMore.

Lemma Load_only_error_witness :
  Config.Load Config.no_duration Go.Atoi Config.no_join Config.os_bare
  = Err "TS_AUTHKEY is required" /\
  Config.Getenv Config.os_bare "TS_AUTHKEY" = "".
Proof.
  split; [reflexivity |].
  apply (Load_only_error Config.no_duration Go.Atoi Config.no_join
           Config.os_bare "TS_AUTHKEY is required").
  reflexivity.
Defined.

Lemma Load_state_dir_precedence_witness :
  exists cfg,
    Config.Load Config.no_duration Go.Atoi Config.no_join
      Config.os_container_devel = Ok cfg /\
    Config.StateDir (Config.Tailscale cfg) = "./tsnet.tmp/".
Proof.
  eexists. split; [vm_compute; reflexivity |].
  apply (Load_state_dir_precedence Config.no_duration Go.Atoi Config.no_join
           Config.os_container_devel);
    vm_compute; reflexivity.
Defined.


Lemma Load_identity_nonempty_witness :
  exists cfg,
    Config.Load Config.no_duration Go.Atoi Config.no_join Config.os_defaults
    = Ok cfg /\
    Config.AuthKey (Config.Tailscale cfg) = "tskey-auth-1" /\
    Config.Hostname (Config.Tailscale cfg) = "skopos-dnsmon".
Proof.
  eexists. split; [vm_compute; reflexivity |].
  destruct (Load_identity_nonempty Config.no_duration Go.Atoi Config.no_join
              Config.os_defaults _ eq_refl) as (Hk & _ & _ & _ & Hh).
  split; [exact Hk | apply Hh; reflexivity].
Defined.

Lemma Load_accepts_any_parsed_duration_witness :
  exists cfg,
    Config.Load Config.parse_0s Go.Atoi Config.no_join Config.os_zero_interval
    = Ok cfg /\
    Config.Interval (Config.HealthCheck cfg) = 0%Z.
Proof.
  destruct (Load_accepts_any_parsed_duration Config.parse_0s Go.Atoi
              Config.no_join Config.os_zero_interval 0%Z)
    as (cfg & HL & Hi & _); [discriminate |].
  exists cfg. split; [exact HL |]. apply Hi; [discriminate | reflexivity].
Defined.

(** ** Tailscale server: what else the code shows *)
Section TailscaleMore.
Import Tailscale.

Implicit Types (s : Server) (w : StartEnv).

Lemma same_identity_refl s : same_identity s s.
Proof. repeat split. Qed.

Lemma same_identity_trans s1 s2 s3 :
  same_identity s1 s2 -> same_identity s2 s3 -> same_identity s1 s3.
Proof. unfold same_identity. intuition congruence. Qed.

Lemma same_identity_assignIP s ip : same_identity s (assignIP s ip).
Proof. unfold assignIP. destruct (Is4 ip), (Is6 ip); repeat split. Qed.

Lemma same_identity_fold ips s : same_identity s (fold_left assignIP ips s).
Proof.
  revert s. induction ips as [| ip ips IH]; intros s; simpl.
  - apply same_identity_refl.
  - eapply same_identity_trans; [apply same_identity_assignIP | apply IH].
Qed.

Lemma same_identity_assignIPs status s : same_identity s (assignIPs status s).
Proof.
  unfold assignIPs. destruct (Self status) as [self |];
    [| apply same_identity_refl].
  destruct (0 <? _)%nat; [apply same_identity_fold | apply same_identity_refl].
Qed.

(** The loop over the addresses as a whole. *)
Lemma assignIPs_fold status s :
  assignIPs status s = fold_left assignIP (selfIPs status) s.
Proof.
  unfold assignIPs, selfIPs. destruct (Self status) as [self |]; [| reflexivity].
  destruct (TailscaleIPs self); reflexivity.
Qed.

Lemma lastText_cons pick ip ips :
  lastText pick (ip :: ips)
  = if pick ip : bool
    then match lastText pick ips with
         | Some y => Some y
         | None => Some (text ip)
         end
    else lastText pick ips.
Proof.
  unfold lastText. simpl. destruct (pick ip); [| reflexivity].
  by rewrite fmap_cons, last_cons.
Qed.

Lemma fold_assignIP_addresses ips s :
  tailscaleIP (fold_left assignIP ips s)
  = default (tailscaleIP s) (lastText Is4 ips) /\
  tailscaleIPv6 (fold_left assignIP ips s)
  = default (tailscaleIPv6 s) (lastText Is6 ips) /\
  localClient (fold_left assignIP ips s) = localClient s /\
  server (fold_left assignIP ips s) = server s.
Proof.
  revert s. induction ips as [| ip ips IH]; intros s; [by repeat split |].
  simpl. destruct (IH (assignIP s ip)) as (H4 & H6 & Hlc & Hsrv).
  rewrite H4, H6, Hlc, Hsrv, !lastText_cons. unfold assignIP.
  destruct (Is4 ip) eqn:E4, (Is6 ip) eqn:E6; simpl;
    try (unfold Is4, Is6 in E4, E6; destruct (kind ip); discriminate);
    repeat split; try reflexivity;
    match goal with |- context [lastText ?p ips] => by destruct (lastText p ips) end.
Qed.

(** The outcome of [Start] on a server that is not started is decided by
    its surroundings. *)
Lemma Start_outcome s w : started s = false -> (Start s w).1 = startOutcome w.
Proof.
  intros Hs. unfold Start, startOutcome. rewrite Hs.
  destruct (localClientReply w); [| reflexivity].
  destruct (firstStatus w) as [status |]; [| reflexivity].
  by destruct (waitRunning status (polls w)) as [[|] |].
Qed.

(** X7: [Listen] and [Status] follow the lifecycle.  After a [Start] on a
    server that was not started they delegate to tsnet exactly when that
    [Start] returned [nil]; after a [Close] on a started server they
    answer "server not started" exactly when that [Close] returned [nil],
    and still delegate after a [Close] that failed. *)
Theorem Listen_follows_lifecycle s (network address : string)
    (tsnetListen : string -> string -> result nat)
    (clientStatus : result Status) :
  (forall w, started s = false ->
     let s' := (Start s w).2 in
     Listen s' network address tsnetListen
     = match (Start s w).1 with
       | Returned None => tsnetListen network address
       | _ => Err "server not started"
       end /\
     ServerStatus s' clientStatus
     = match (Start s w).1 with
       | Returned None => clientStatus
       | _ => Err "server not started"
       end) /\
  (forall r, started s = true ->
     let s' := (Close s r).2 in
     Listen s' network address tsnetListen
     = match (Close s r).1 with
       | None => Err "server not started"
       | Some _ => tsnetListen network address
       end /\
     ServerStatus s' clientStatus
     = match (Close s r).1 with
       | None => Err "server not started"
       | Some _ => clientStatus
       end).
Proof.
  split.
  - intros w Hs s'. subst s'.
    pose proof (Start_not_started s w Hs) as H.
    destruct (Start s w) as [[[e |] |] s']; simpl in *;
      unfold Listen, ServerStatus; rewrite H; split; reflexivity.
  - intros r Hs s'. subst s'. unfold Close. rewrite Hs. simpl.
    destruct r; simpl; unfold Listen, ServerStatus; simpl; rewrite ?Hs;
      split; reflexivity.
Qed.

Lemma Start_same_identity s w : same_identity s (Start s w).2.
Proof.
  unfold Start. destruct (started s); [apply same_identity_refl |].
  destruct (localClientReply w) as [lc |]; [| repeat split].
  destruct (firstStatus w) as [status |]; [| repeat split].
  destruct (waitRunning status (polls w)) as [[status' |] |];
    [| repeat split | repeat split].
  simpl.
  pose proof (same_identity_assignIPs status'
                (set_localClient (Some lc)
                   (set_server (invoke CallLocalClient (server s)) s))) as H.
  destruct H as (H1 & H2 & H3 & H4 & H5 & H6). repeat split; assumption.
Qed.

Lemma Close_same_identity s (r : option string) : same_identity s (Close s r).2.
Proof.
  unfold Close. destruct (started s); [| apply same_identity_refl].
  destruct r; repeat split.
Qed.

(** X8: [Start] and [Close] never change the host name, the state
    directory or the configuration of the wrapped tsnet server, however
    they end, and neither does a [Start] followed by a [Close]. *)
Theorem Start_Close_keep_identity s w (r : option string) :
  same_identity s (Start s w).2 /\
  same_identity s (Close s r).2 /\
  same_identity s (Close (Start s w).2 r).2.
Proof.
  split; [apply Start_same_identity |].
  split; [apply Close_same_identity |].
  eapply same_identity_trans;
    [apply Start_same_identity | apply Close_same_identity].
Qed.

(** X9: when [Start] returns [nil], the IPv4 address it records is the
    last IPv4 address of the status that reported Running, and the IPv6
    address is the last IPv6 address; when that status has no address of
    a family (or no Self), the address recorded before is kept. *)
Theorem Start_records_last_addresses s w lc status0 status :
  started s = false ->
  localClientReply w = Ok lc ->
  firstStatus w = Ok status0 ->
  waitRunning status0 (polls w) = Some (Ok status) ->
  (Start s w).1 = Returned None /\
  TailscaleIP (Start s w).2
  = default (tailscaleIP s) (lastText Is4 (selfIPs status)) /\
  TailscaleIPv6 (Start s w).2
  = default (tailscaleIPv6 s) (lastText Is6 (selfIPs status)).
Proof.
  intros Hs Hlc Hst Hw. unfold Start, TailscaleIP, TailscaleIPv6.
  rewrite Hs, Hlc, Hst, Hw. simpl. rewrite assignIPs_fold.
  split; [reflexivity |].
  destruct (fold_assignIP_addresses (selfIPs status)
              (set_localClient (Some lc)
                 (set_server (invoke CallLocalClient (server s)) s)))
    as (H4 & H6 & _). simpl in H4, H6. auto.
Qed.

(** X10: [Close] leaves the recorded addresses and the local client as
    they are, whether it succeeds or fails: after shutdown the accessors
    still return the addresses of the closed connection. *)
Theorem Close_keeps_addresses s (r : option string) :
  TailscaleIP (Close s r).2 = TailscaleIP s /\
  TailscaleIPv6 (Close s r).2 = TailscaleIPv6 s /\
  getLocalClient (Close s r).2 = getLocalClient s.
Proof.
  unfold Close. destruct (started s); [| repeat split].
  destruct r; repeat split.
Qed.


(** X12: [Start] returns, with [nil] or an error, as soon as one turn of
    its loop meets a done context, a failing status call or a Running
    backend; it is still waiting only if no turn does. *)
Theorem Start_returns s w :
  existsb decisive (polls w) = true ->
  exists err s', Start s w = (Returned err, s').
Proof.
  intros Hdec. unfold Start.
  destruct (started s); [eauto |].
  destruct (localClientReply w); [| eauto].
  destruct (firstStatus w) as [status |]; [| eauto].
  destruct (waitRunning_returns (polls w) status Hdec) as [[status' | e] ->];
    eauto.
Qed.

(** X13: a [Close] on a started server whose tsnet close fails returns the
    wrapped error and leaves the server started: [Start] is still refused,
    and a further [Close] calls the tsnet server again. *)
Theorem Close_failure_keeps_started s (e : string) w (r : option string) :
  started s = true ->
  let s' := (Close s (Some e)).2 in
  (Close s (Some e)).1 = Some (wrap "failed to close tsnet server" e) /\
  started s' = true /\
  Start s' w = (Returned (Some "server already started"), s') /\
  ts_calls (server (Close s' r).2)
  = (ts_calls (server s) ++ [CallClose; CallClose])%list.
Proof.
  intros Hs s'.
  set (s1 := set_server (invoke CallClose (server s)) s).
  assert (HC : Close s (Some e)
               = (Some (wrap "failed to close tsnet server" e), s1))
    by (unfold Close; by rewrite Hs).
  assert (H1 : started s1 = true) by exact Hs.
  assert (Hcalls : ts_calls (server s1)
                   = (ts_calls (server s) ++ [CallClose])%list) by reflexivity.
  subst s'. rewrite HC. clearbody s1. simpl.
  split; [reflexivity |]. split; [exact H1 |]. split.
  - unfold Start. by rewrite H1.
  - unfold Close. rewrite H1.
    destruct r; simpl; rewrite Hcalls; by rewrite <- app_assoc.
Qed.

(** X14: [Start] is refused only while the server is started.  After a
    [Start] that failed or a [Close] that succeeded, the next [Start] runs
    again from the beginning: its outcome is the one its own surroundings
    decide, and it asks the tsnet server for a local client once more. *)
Theorem Start_again s w1 w2 :
  (forall e, started s = false -> (Start s w1).1 = Returned (Some e) ->
     (Start (Start s w1).2 w2).1 = startOutcome w2 /\
     ts_calls (server (Start (Start s w1).2 w2).2)
     = (ts_calls (server s) ++ [CallLocalClient; CallLocalClient])%list) /\
  (started s = true -> (Close s None).1 = None /\
     (Start (Close s None).2 w2).1 = startOutcome w2 /\
     ts_calls (server (Start (Close s None).2 w2).2)
     = (ts_calls (server s) ++ [CallClose; CallLocalClient])%list).
Proof.
  assert (Hcalls : forall s0 w, started s0 = false ->
            ts_calls (server (Start s0 w).2)
            = (ts_calls (server s0) ++ [CallLocalClient])%list).
  { intros s0 w Hs0. unfold Start. rewrite Hs0.
    destruct (localClientReply w); [| reflexivity].
    destruct (firstStatus w) as [status |]; [| reflexivity].
    destruct (waitRunning status (polls w)) as [[status' |] |];
      [| reflexivity | reflexivity].
    simpl. rewrite assignIPs_fold.
    destruct (fold_assignIP_addresses (selfIPs status')
                (set_localClient (Some a)
                   (set_server (invoke CallLocalClient (server s0)) s0)))
      as (_ & _ & _ & ->). reflexivity. }
  split.
  - intros e Hs Herr.
    pose proof (Start_not_started s w1 Hs) as Hflag.
    destruct (Start s w1) as [o s1] eqn:HS. simpl in *. subst o.
    split; [by apply Start_outcome |].
    rewrite (Hcalls s1 w2 Hflag).
    assert (H1 : ts_calls (server s1)
                 = (ts_calls (server s) ++ [CallLocalClient])%list).
    { pose proof (Hcalls s w1 Hs) as H. by rewrite HS in H. }
    rewrite H1. by rewrite <- app_assoc.
  - intros Hs. unfold Close. rewrite Hs. simpl.
    set (s1 := set_started false (set_server (invoke CallClose (server s)) s)).
    split; [reflexivity |].
    split; [by apply Start_outcome |].
    rewrite (Hcalls s1 w2 eq_refl). simpl. by rewrite <- app_assoc.
Qed.

(** X15: [Start] stores the local client the tsnet server hands out before
    it asks for the status, so a [Start] that then fails, or is still
    waiting, has replaced the client although the server is not started;
    when no client is handed out the stored one stays. *)
Theorem Start_replaces_client_early s w :
  started s = false ->
  (forall lc, localClientReply w = Ok lc ->
     getLocalClient (Start s w).2 = Some lc) /\
  (forall e, localClientReply w = Err e ->
     getLocalClient (Start s w).2 = getLocalClient s).
Proof.
  intros Hs. unfold Start, getLocalClient. rewrite Hs. split.
  - intros lc ->.
    destruct (firstStatus w) as [status |]; [| reflexivity].
    destruct (waitRunning status (polls w)) as [[status' |] |];
      [| reflexivity | reflexivity].
    simpl. rewrite assignIPs_fold.
    by destruct (fold_assignIP_addresses (selfIPs status')
                   (set_localClient (Some lc)
                      (set_server (invoke CallLocalClient (server s)) s)))
      as (_ & _ & -> & _).
  - by intros e ->.
Qed.

(** X16: [CleanupStateDir] hands nothing to [os.RemoveAll] while the
    server is started and answers with an error; on a server that is not
    started it hands over the state directory, and only that.  After
    [New] this is the configured directory, and a [Start] that did not
    return [nil] or a [Close] that did does not change it. *)
Theorem CleanupStateDir_only_when_stopped s
    (removeAll : string -> option string) :
  (started s = true ->
     CleanupStateDir s removeAll
     = (Some "cannot cleanup state directory while server is running", [])) /\
  (started s = false -> (CleanupStateDir s removeAll).2 = [stateDir s]) /\
  (forall cfg, New cfg None = Ok s ->
     (CleanupStateDir s removeAll).2 = [StateDir cfg]) /\
  (forall w, started s = false ->
     (CleanupStateDir (Start s w).2 removeAll).2
     = match (Start s w).1 with
       | Returned None => []
       | _ => [stateDir s]
       end) /\
  (started s = true ->
     (CleanupStateDir (Close s None).2 removeAll).2 = [stateDir s]).
Proof.
  assert (Hstopped : forall s0, started s0 = false ->
            (CleanupStateDir s0 removeAll).2 = [stateDir s0]).
  { intros s0 H0. unfold CleanupStateDir. rewrite H0.
    by destruct (removeAll (stateDir s0)). }
  split; [| split; [| split; [| split]]].
  - intros Hs. unfold CleanupStateDir. by rewrite Hs.
  - apply Hstopped.
  - intros cfg [= <-]. by rewrite Hstopped.
  - intros w Hs.
    pose proof (Start_not_started s w Hs) as Hflag.
    destruct (Start_same_identity s w) as (_ & Hdir & _).
    destruct (Start s w) as [[[e |] |] s'] eqn:HS; simpl in *.
    + by rewrite Hstopped, Hdir.
    + unfold CleanupStateDir. by rewrite Hflag.
    + by rewrite Hstopped, Hdir.
  - intros Hs. rewrite Hstopped; [| unfold Close; by rewrite Hs].
    unfold Close. by rewrite Hs.
Qed.

End TailscaleMore.

Lemma Listen_follows_lifecycle_witness :
  Tailscale.Listen Tailscale.fresh "tcp" ":53" Tailscale.listener_ok
  = Err "server not started" /\
  Tailscale.Listen Tailscale.up "tcp" ":53" Tailscale.listener_ok = Ok 7%nat /\
  Tailscale.Listen (Tailscale.Close Tailscale.up None).2 "tcp" ":53"
    Tailscale.listener_ok = Err "server not started".
Proof.
  split; [reflexivity |].
  destruct (Listen_follows_lifecycle Tailscale.fresh "tcp" ":53"
              Tailscale.listener_ok (Err "unused")) as [Hstart _].
  destruct (Hstart Tailscale.env_up eq_refl) as [HL _].
  split; [exact HL |].
  destruct (Listen_follows_lifecycle Tailscale.up "tcp" ":53"
              Tailscale.listener_ok (Err "unused")) as [_ Hclose].
  destruct (Hclose None eq_refl) as [HL' _]. exact HL'.
Defined.

Lemma Start_records_last_addresses_witness :
  Tailscale.TailscaleIP (Tailscale.Start Tailscale.fresh Tailscale.env_up).2
  = "100.64.0.7" /\
  Tailscale.TailscaleIP (Tailscale.Start (Tailscale.Close Tailscale.up None).2
                           Tailscale.env_up_bare).2
  = "100.64.0.7".
Proof.
  split.
  - apply (Start_records_last_addresses Tailscale.fresh Tailscale.env_up 1%nat
             Tailscale.starting Tailscale.running); reflexivity.
  - apply (Start_records_last_addresses (Tailscale.Close Tailscale.up None).2
             Tailscale.env_up_bare 4%nat Tailscale.running_bare
             Tailscale.running_bare); reflexivity.
Defined.


Lemma Start_returns_witness :
  exists err s',
    Tailscale.Start Tailscale.fresh Tailscale.env_cancelled
    = (Tailscale.Returned err, s').
Proof.
  apply (Start_returns Tailscale.fresh Tailscale.env_cancelled). reflexivity.
Defined.

Lemma Close_failure_keeps_started_witness :
  Tailscale.started (Tailscale.Close Tailscale.up (Some "busy")).2 = true /\
  Tailscale.ts_calls
    (Tailscale.server
       (Tailscale.Close (Tailscale.Close Tailscale.up (Some "busy")).2 None).2)
  = [Tailscale.CallLocalClient; Tailscale.CallClose; Tailscale.CallClose].
Proof.
  destruct (Close_failure_keeps_started Tailscale.up "busy" Tailscale.env_up
              None eq_refl) as (_ & Hs & _ & Hc).
  split; [exact Hs | exact Hc].
Defined.

Lemma Start_again_witness :
  (Tailscale.Start (Tailscale.Start Tailscale.fresh Tailscale.env_no_status).2
     Tailscale.env_up).1 = Tailscale.Returned None /\
  (Tailscale.Start (Tailscale.Close Tailscale.up None).2 Tailscale.env_up).1
  = Tailscale.Returned None.
Proof.
  destruct (Start_again Tailscale.fresh Tailscale.env_no_status Tailscale.env_up)
    as [Hretry _].
  destruct (Hretry _ eq_refl eq_refl) as [H1 _].
  destruct (Start_again Tailscale.up Tailscale.env_no_status Tailscale.env_up)
    as [_ Hrestart].
  destruct (Hrestart eq_refl) as (_ & H2 & _).
  split; [exact H1 | exact H2].
Defined.

Lemma Start_replaces_client_early_witness :
  Tailscale.started (Tailscale.Start Tailscale.fresh Tailscale.env_no_status).2
  = false /\
  Tailscale.getLocalClient
    (Tailscale.Start Tailscale.fresh Tailscale.env_no_status).2 = Some 3%nat.
Proof.
  split; [reflexivity |].
  apply (Start_replaces_client_early Tailscale.fresh Tailscale.env_no_status);
    reflexivity.
Defined.

Lemma CleanupStateDir_only_when_stopped_witness :
  Tailscale.CleanupStateDir Tailscale.up Tailscale.remove_ok
  = (Some "cannot cleanup state directory while server is running", []) /\
  (Tailscale.CleanupStateDir Tailscale.fresh Tailscale.remove_ok).2
  = ["./tsnet.tmp/"].
Proof.
  split.
  - destruct (CleanupStateDir_only_when_stopped Tailscale.up Tailscale.remove_ok)
      as [Hrunning _].
    apply Hrunning. reflexivity.
  - destruct (CleanupStateDir_only_when_stopped Tailscale.fresh
                Tailscale.remove_ok) as (_ & Hstopped & _).
    apply Hstopped. reflexivity.
Defined.

(** ** dnsmon: what else the code shows *)
Section DnsmonMore.
Import Dnsmon.

Variable ParseDuration : string -> option Go.Duration.
Variable Atoi : string -> option Z.
Variable Join : list string -> string.

Local Abbreviation Load := (Config.Load ParseDuration Atoi Join).
Local Abbreviation main := (Dnsmon.main ParseDuration Atoi Join).

(** The run of [main] in terms of what it meets. *)
Lemma main_table (w : World) :
  main w =
  if Config.nonempty (Config.Getenv (os w) "TS_AUTHKEY") then
    match mkdirAll w with
    | Some _ => Exited 5
    | None =>
        match Tailscale.startOutcome (startEnv w) with
        | Tailscale.Returned (Some _) => Exited 5
        | Tailscale.Blocked => Alive
        | Tailscale.Returned None =>
            match signal w with Some _ => Exited 0 | None => Alive end
        end
    end
  else Exited 5.
Proof.
  unfold Dnsmon.main.
  destruct (Load_cases ParseDuration Atoi Join (os w))
    as [[Hkey ->] | [Hkey [dir ->]]].
  - apply nonempty_false in Hkey. by rewrite Hkey.
  - apply nonempty_true in Hkey. rewrite Hkey.
    unfold Tailscale.New. destruct (mkdirAll w); [reflexivity |].
    match goal with
    | |- context [Tailscale.Start ?ts _] =>
        pose proof (Start_outcome ts (startEnv w) eq_refl) as Ho;
        destruct (Tailscale.Start ts (startEnv w)) as [o ts']
    end.
    simpl in Ho. subst o.
    destruct (Tailscale.startOutcome (startEnv w)) as [[e |] |];
      [reflexivity | | reflexivity].
    destruct (signal w); [| reflexivity].
    by destruct (Tailscale.Close ts' (closeReply w)).
Qed.

(** X17: [main] exits with code 5 exactly when TS_AUTHKEY is unset or
    empty, or the state directory cannot be created, or [Start] returns
    an error (no local client, a failing status call, a context done
    while waiting); and whenever it exits, the code is 0 or 5. *)
Theorem main_exits_5_iff (w : World) :
  (main w = Exited 5 <->
   Config.Getenv (os w) "TS_AUTHKEY" = "" \/
   is_Some (mkdirAll w) \/
   exists e, Tailscale.startOutcome (startEnv w) = Tailscale.Returned (Some e)) /\
  (forall code, main w = Exited code -> code = 0%Z \/ code = 5%Z).
Proof.
  rewrite main_table.
  destruct (Config.nonempty _) eqn:Hkey.
  - apply nonempty_true in Hkey.
    destruct (mkdirAll w) as [e |].
    { split; [| intros ? [= <-]; auto].
      split; [intros _; right; left; eauto | reflexivity]. }
    destruct (Tailscale.startOutcome (startEnv w)) as [[e |] |].
    + split; [| intros ? [= <-]; auto].
      split; [intros _; right; right; eauto | reflexivity].
    + destruct (signal w); (split; [| intros ? [=]; auto]);
        (split; [discriminate |]);
        intros [? | [[? [=]] | [? [=]]]]; contradiction.
    + split; [| intros ? [=]].
      split; [discriminate |].
      intros [? | [[? [=]] | [? [=]]]]; contradiction.
  - apply nonempty_false in Hkey.
    split; [| intros ? [= <-]; auto].
    split; [auto | reflexivity].
Qed.

(** X18: [main] exits with code 0 exactly when start-up went through and a
    termination signal arrived; it is still running exactly when start-up
    went through and no signal arrived, or [Start] is still waiting for
    the backend.  So after start-up nothing but a signal ends the
    process, and a backend that never runs keeps it waiting for ever. *)
Theorem main_runs_until_signal (w : World) :
  let started :=
    Config.Getenv (os w) "TS_AUTHKEY" <> "" /\ mkdirAll w = None /\
    Tailscale.startOutcome (startEnv w) = Tailscale.Returned None in
  (main w = Exited 0 <-> started /\ is_Some (signal w)) /\
  (main w = Alive <->
   (started /\ signal w = None) \/
   (Config.Getenv (os w) "TS_AUTHKEY" <> "" /\ mkdirAll w = None /\
    Tailscale.startOutcome (startEnv w) = Tailscale.Blocked)).
Proof.
  intros started. subst started. rewrite main_table.
  destruct (Config.nonempty _) eqn:Hkey.
  - apply nonempty_true in Hkey.
    destruct (mkdirAll w) as [e |].
    { split; (split; [discriminate |]).
      - intros [(_ & [=] & _) _].
      - intros [[(_ & [=] & _) _] | (_ & [=] & _)]. }
    destruct (Tailscale.startOutcome (startEnv w)) as [[e |] |].
    + split; (split; [discriminate |]).
      * intros [(_ & _ & [=]) _].
      * intros [[(_ & _ & [=]) _] | (_ & _ & [=])].
    + destruct (signal w) as [sig |].
      * split; [split; [intros _ | reflexivity]; repeat split; eauto |].
        split; [discriminate |].
        intros [[_ [=]] | (_ & _ & [=])].
      * split; [split; [discriminate | intros [_ [? [=]]]] |].
        split; [intros _; left; repeat split; auto | reflexivity].
    + split; [split; [discriminate | intros [(_ & _ & [=]) _]] |].
      split; [intros _; right; repeat split; auto | reflexivity].
  - apply nonempty_false in Hkey.
    split; (split; [discriminate |]).
    + intros [(Hne & _) _]. contradiction.
    + intros [[(Hne & _) _] | (Hne & _)]; contradiction.
Qed.

(** X19: the tsnet server that [main] creates from a loaded configuration
    carries TS_AUTHKEY as its key, the loaded host name and state
    directory, is never ephemeral, and is not started. *)
Theorem main_server_configuration (w : World) cfg ts :
  Load (os w) = Ok cfg ->
  Tailscale.New (tsConfig cfg) (mkdirAll w) = Ok ts ->
  Tailscale.ts_AuthKey (Tailscale.server ts) = Config.Getenv (os w) "TS_AUTHKEY" /\
  Tailscale.ts_AuthKey (Tailscale.server ts) <> "" /\
  Tailscale.ts_Ephemeral (Tailscale.server ts) = false /\
  Tailscale.ts_Hostname (Tailscale.server ts)
  = Config.Hostname (Config.Tailscale cfg) /\
  Tailscale.getHostname ts = Config.Hostname (Config.Tailscale cfg) /\
  Tailscale.ts_Dir (Tailscale.server ts)
  = Config.StateDir (Config.Tailscale cfg) /\
  Tailscale.StateDirPath ts = Config.StateDir (Config.Tailscale cfg) /\
  Tailscale.started ts = false.
Proof.
  intros HL HN.
  destruct (Load_cases ParseDuration Atoi Join (os w))
    as [[_ HE] | [Hkey [dir HO]]]; [congruence |].
  rewrite HO in HL. injection HL as <-.
  unfold Tailscale.New in HN. destruct (mkdirAll w); [discriminate |].
  injection HN as <-. simpl. repeat split; auto.
Qed.

End DnsmonMore.

Lemma main_exits_5_iff_witness :
  Dnsmon.main Config.no_duration Go.Atoi Config.no_join Dnsmon.world_cancelled
  = Dnsmon.Exited 5.
Proof.
  apply (main_exits_5_iff Config.no_duration Go.Atoi Config.no_join
           Dnsmon.world_cancelled).
  right. right. exists "context canceled". reflexivity.
Defined.

Lemma main_runs_until_signal_witness :
  Dnsmon.main Config.no_duration Go.Atoi Config.no_join Dnsmon.world_waiting
  = Dnsmon.Alive.
Proof.
  apply (main_runs_until_signal Config.no_duration Go.Atoi Config.no_join
           Dnsmon.world_waiting).
  left. repeat split. discriminate.
Defined.

Lemma main_server_configuration_witness :
  exists ts,
    Tailscale.New
      (Dnsmon.tsConfig
         {| Config.Tailscale := {| Config.AuthKey := "tskey-auth-1";
                                   Config.Hostname := "skopos-dnsmon";
                                   Config.StateDir := "/data" |};
            Config.HealthCheck := {| Config.Interval := 20000000000%Z;
                                     Config.Timeout := 5000000000%Z;
                                     Config.UnhealthyThreshold := 1%Z |};
            Config.DNS := {| Config.UpdateTimeout := 10000000000%Z |};
            Config.Development := false |}) None = Ok ts /\
    Tailscale.ts_Ephemeral (Tailscale.server ts) = false /\
    Tailscale.ts_AuthKey (Tailscale.server ts) = "tskey-auth-1".
Proof.
  eexists. split; [reflexivity |].
  destruct (main_server_configuration Config.no_duration Go.Atoi Config.no_join
              Dnsmon.world_clean _ _ eq_refl eq_refl) as (Hk & _ & He & _).
  split; [exact He | exact Hk].
Defined.
